(** * FastMCPClient: token lifecycle and response normalisation

    A shallow embedding of [src/services/FastMCPClient.ts].  The client is a
    class with one mutable field ([accessToken]) working against three
    ambient services: the browser's [localStorage], the blocking [prompt]
    dialog and an axios instance.  Methods become functions in a small
    state-and-exception monad over a [World]; what the environment answers
    (the text typed in the dialog, the outcome of an HTTP exchange) is an
    explicit argument of the method that may ask for it, and what the client
    asked for is recorded in the world's [trace].

    Console output is left out: it has no bearing on what a method returns,
    except that an expression it prints is evaluated, and those that can
    throw are kept ([log_results]).  What the JavaScript engine does by
    itself ([JSON.parse], the coercions to string and number) is a
    parameter, the [Runtime]. *)

From Stdlib Require Import ZArith QArith Ascii String List Lia.
From stdpp Require Import base option list strings gmap.

Local Open Scope Z_scope.

(** ** JavaScript strings

    A string is a sequence of code units; the embedding keeps the code
    units below 256. *)

Module JsString.

(** White space as [String.prototype.trim] and [parseInt] see it:
    TAB, LF, VT, FF, CR, SP and NBSP. *)
Definition is_white_space (c : ascii) : bool :=
  let n := nat_of_ascii c in
  ((9 <=? n)%nat && (n <=? 13)%nat) || (n =? 32)%nat || (n =? 160)%nat.

Fixpoint trimStart (s : string) : string :=
  match s with
  | String c s' => if is_white_space c then trimStart s' else s
  | EmptyString => EmptyString
  end.

Fixpoint trimEnd (s : string) : string :=
  match s with
  | String c s' =>
      match trimEnd s' with
      | EmptyString => if is_white_space c then EmptyString else String c EmptyString
      | t => String c t
      end
  | EmptyString => EmptyString
  end.

(** [s.trim()] *)
Definition trim (s : string) : string := trimEnd (trimStart s).

(** [s.startsWith(p)] *)
Definition startsWith (p s : string) : bool := String.prefix p s.

(** [s.substring(n)]: the string without its first [n] code units. *)
Fixpoint substring_from (n : nat) (s : string) : string :=
  match n, s with
  | S n', String _ s' => substring_from n' s'
  | _, _ => s
  end.

(** [s.includes(p)] *)
Definition includes (p s : string) : bool :=
  match String.index 0 p s with Some _ => true | None => false end.

(** [s.split('\n')]: never empty, the empty string splits into [['']]. *)
Fixpoint split_lines (s : string) : list string :=
  match s with
  | EmptyString => [EmptyString]
  | String c s' =>
      if Ascii.eqb c "010"%char then EmptyString :: split_lines s'
      else match split_lines s' with
           | l :: ls => String c l :: ls
           | [] => [String c EmptyString]
           end
  end.

(** [lines.join('\n')] *)
Fixpoint join_lines (ls : list string) : string :=
  match ls with
  | [] => EmptyString
  | [l] => l
  | l :: ls' => l +:+ String "010"%char (join_lines ls')
  end.

(** Value of a digit in radix up to 36, as [parseInt] reads it. *)
Definition digit_value (c : ascii) : option Z :=
  let n := Z.of_nat (nat_of_ascii c) in
  if (48 <=? n) && (n <=? 57) then Some (n - 48)
  else if (97 <=? n) && (n <=? 122) then Some (n - 87)
  else if (65 <=? n) && (n <=? 90) then Some (n - 55)
  else None.

(** The longest prefix of digits below [radix], read most significant
    digit first; [acc] is [None] until a digit has been read. *)
Fixpoint scan_digits (radix : Z) (s : string) (acc : option Z) : option Z :=
  match s with
  | String c s' =>
      match digit_value c with
      | Some d =>
          if d <? radix
          then scan_digits radix s' (Some (radix * default 0 acc + d))
          else acc
      | None => acc
      end
  | EmptyString => acc
  end.

(** [parseInt(s)] with no radix argument; [None] stands for [NaN].
    Leading white space is skipped, a sign is read, a [0x]/[0X] prefix
    selects radix 16, and reading stops at the first non-digit. *)
Definition parseInt (s : string) : option Z :=
  let s1 := trimStart s in
  let neg := startsWith "-" s1 in
  let s2 := if neg || startsWith "+" s1 then substring_from 1 s1 else s1 in
  let hex := startsWith "0x" s2 || startsWith "0X" s2 in
  let s3 := if hex then substring_from 2 s2 else s2 in
  match scan_digits (if hex then 16 else 10) s3 None with
  | Some v => Some (if neg then - v else v)
  | None => None
  end.

Definition digit_char (d : Z) : ascii := ascii_of_nat (Z.to_nat (48 + d)).

(** Decimal digits of a non-negative integer, pushed in front of [acc]. *)
Fixpoint to_digits (fuel : nat) (n : Z) (acc : string) : string :=
  let acc' := String (digit_char (n mod 10)) acc in
  match fuel with
  | O => acc'
  | S fuel' => if n <? 10 then acc' else to_digits fuel' (n / 10) acc'
  end.

(** [n.toString()] for an integral number [n]; JavaScript prints
    integers of magnitude below 10^21 this way, which covers every time
    value (at most 8.64e15 in magnitude) and the hour added to it. *)
Definition Number_toString (n : Z) : string :=
  let digits m := to_digits (Z.to_nat (Z.log2 m)) m EmptyString in
  if n <? 0 then String "-"%char (digits (- n)) else digits n.

End JsString.

Import JsString.

(** ** JSON values

    What [JSON.parse] and axios hand to the client.  A number is kept as a
    rational; an object as its list of members (the first binding of a key
    is the one a property access sees). *)

#[warnings="-register-all"]
Inductive json : Type :=
| JNull
| JBool (b : bool)
| JNum (q : Q)
| JStr (s : string)
| JArr (items : list json)
| JObj (members : list (string * json)).

(** A JavaScript value of the client is a JSON value or [undefined]. *)
Definition jsval : Type := option json.
Definition undefined : jsval := None.

Fixpoint assoc (k : string) (o : list (string * json)) : jsval :=
  match o with
  | [] => None
  | (k', v) :: o' => if String.eqb k k' then Some v else assoc k o'
  end.

(** ** Failures

    Every failure of the client is a JavaScript [Error] told apart only by
    its message.  One constructor per message template of the source; the
    values a template interpolates are kept as they are, [message] below
    prints them into the text.  The wording of the engine's own errors
    varies between engines; a typical one is kept. *)

Record AxiosFailure := mkAxiosFailure {
  ax_code : option string;                       (* error.code *)
  ax_message : string;                           (* error.message *)
  ax_response : option (Z * string * jsval);     (* status, statusText, data *)
  ax_request : bool                              (* error.request is set *)
}.

Inductive Failure : Type :=
| TokenRequired
    (* 'OAuth token is required to access FastMCP' *)
| AuthInitFailed (cause : Failure)
    (* 'Failed to initialize OAuth authentication: ' + error.message *)
| JsonRpcFailure (message code : jsval)
    (* `JSON-RPC Error: ${message} (Code: ${code})` *)
| SSEParseFailed (cause : Failure)
    (* `Failed to parse SSE response: ${parseError}` *)
| NoDataLine
    (* 'No data line found in SSE response' *)
| NetworkFailure (url : string)
    (* `Network error connecting to FastMCP server at ${baseUrl}. ...` *)
| ServerFailure (status : Z) (statusText : string) (data : jsval)
    (* `FastMCP server returned error ${status}: ${statusText}\n...` *)
| NoResponse (url : string)
    (* `No response received from FastMCP server. ...` *)
| CallToolFailed (tool : string) (cause : Failure)
    (* `Failed to call tool ${toolName}: ${error}` *)
| SyntaxError (text : string)
    (* thrown by JSON.parse, with the engine's message *)
| TypeError (text : string)
    (* thrown by the engine, with its message: a property of null, 'in' on
       a primitive, a call of something that is no function *)
| QuotaExceeded (text : string)
    (* thrown by localStorage.setItem when the browser refuses the write: a
       DOMException, which is an Error, with the engine's message *)
| AxiosError (e : AxiosFailure).
    (* a rejection of the axios instance *)

(** ** The world of a client *)

Inductive Event : Type :=
| EvGetItem (key : string)                         (* localStorage.getItem *)
| EvPrompt                                         (* prompt(...) *)
| EvPost (authorization : option string) (tool : string) (arguments : json)
                                                   (* client.post('/mcp', body) *)
| EvGet (authorization : option string).           (* client.get('/') *)

Record World := mkWorld {
  baseUrl : string;                       (* this.baseUrl *)
  accessToken : option string;            (* this.accessToken, None for null *)
  localStorage : gmap string string;      (* window.localStorage *)
  clock : Z;                              (* what new Date().getTime() reads *)
  trace : list Event;                     (* oldest first *)
  write_error : gmap string string -> string -> string -> option string
                                          (* the message of the exception that
                                             localStorage.setItem throws when,
                                             with these contents, the browser
                                             refuses to store this value under
                                             this key (quota); None when it
                                             stores it *)
}.

Definition set_accessToken (t : option string) (w : World) : World :=
  mkWorld (baseUrl w) t (localStorage w) (clock w) (trace w) (write_error w).
Definition set_localStorage (s : gmap string string) (w : World) : World :=
  mkWorld (baseUrl w) (accessToken w) s (clock w) (trace w) (write_error w).
Definition set_clock (t : Z) (w : World) : World :=
  mkWorld (baseUrl w) (accessToken w) (localStorage w) t (trace w) (write_error w).
Definition emit (e : Event) (w : World) : World :=
  mkWorld (baseUrl w) (accessToken w) (localStorage w) (clock w) (trace w ++ [e])
    (write_error w).

(** ** A monad for state and exceptions *)

Definition M (A : Type) : Type := World -> (Failure + A) * World.

Definition ret {A} (a : A) : M A := fun w => (inr a, w).
Definition throw {A} (f : Failure) : M A := fun w => (inl f, w).
Definition bind {A B} (m : M A) (k : A -> M B) : M B :=
  fun w => match m w with
           | (inr a, w') => k a w'
           | (inl f, w') => (inl f, w')
           end.
(** [try { m } catch (error) { h error }] *)
Definition try_catch {A} (m : M A) (h : Failure -> M A) : M A :=
  fun w => match m w with
           | (inr a, w') => (inr a, w')
           | (inl f, w') => h f w'
           end.
Definition gets {A} (f : World -> A) : M A := fun w => (inr (f w), w).
Definition modify (f : World -> World) : M unit := fun w => (inr tt, f w).
(** A pure step that may throw. *)
Definition lift {A} (r : Failure + A) : M A := fun w => (r, w).

Declare Scope js_scope.
Delimit Scope js_scope with js.
Notation "'let*' x := m 'in' k" := (bind m (fun x => k))
  (at level 10, x pattern, m at level 100, k at level 200) : js_scope.
Notation "m ;; k" := (bind m (fun _ => k))
  (at level 100, k at level 200, right associativity) : js_scope.
Local Open Scope js_scope.

(** ** Token manager *)

Definition token_key : string := "fastmcp_access_token".
Definition expiry_key : string := "fastmcp_token_expiry".

(** Truthiness of a string-or-null. *)
Definition truthy_string (s : option string) : bool :=
  match s with
  | Some (String _ _) => true
  | _ => false
  end.

Definition getItem (k : string) : M (option string) :=
  fun w => (inr (localStorage w !! k), emit (EvGetItem k) w).
(** [localStorage.setItem(k, v)] throws when the browser refuses the
    write, and stores nothing then. *)
Definition setItem (k v : string) : M unit :=
  fun w =>
    match write_error w (localStorage w) k v with
    | Some text => (inl (QuotaExceeded text), w)
    | None => (inr tt, set_localStorage (<[k := v]> (localStorage w)) w)
    end.
Definition removeItem (k : string) : M unit :=
  modify (fun w => set_localStorage (delete k (localStorage w)) w).

(** [new Date().getTime()] *)
Definition getTime : M Z := gets clock.

(** What the user does with the dialog: the time it stays open and the
    text it returns ([None] when it is cancelled). *)
Record PromptAnswer := mkAnswer { took : Z; typed : option string }.

Definition prompt (a : PromptAnswer) : M (option string) :=
  fun w => (inr (typed a), set_clock (clock w + took a) (emit EvPrompt w)).

(** [now < parseInt(tokenExpiry)]; a comparison with [NaN] is false. *)
Definition before_expiry (now : Z) (tokenExpiry : string) : bool :=
  match parseInt tokenExpiry with
  | Some e => now <? e
  | None => false
  end.

Definition initializeAuth (a : PromptAnswer) : M unit :=
  try_catch
    (let* storedToken := getItem token_key in
     let* tokenExpiry := getItem expiry_key in
     let* still_valid :=
       (if truthy_string storedToken && truthy_string tokenExpiry
        then let* now := getTime in
             ret (before_expiry now (default EmptyString tokenExpiry))
        else ret false) in
     if still_valid : bool
     then modify (set_accessToken storedToken)
     else
       let* userToken := prompt a in
       if negb (truthy_string userToken)
          || String.eqb (trim (default EmptyString userToken)) EmptyString
       then throw TokenRequired
       else
         modify (set_accessToken (Some (trim (default EmptyString userToken))));;
         let* tok := gets accessToken in
         setItem token_key (default EmptyString tok);;
         let* now := getTime in
         setItem expiry_key (Number_toString (now + 3600000)))
    (fun error => throw (AuthInitFailed error)).

Definition clearAuth : M unit :=
  removeItem token_key;;
  removeItem expiry_key;;
  modify (set_accessToken None).

Definition close : M unit :=
  modify (set_accessToken None).


(** ** JavaScript operators on JSON values *)

Definition Result (A : Type) : Type := Failure + A.

Notation "'let?' x := m 'in' k" :=
  (match m with inr x => k | inl f => inl f end)
  (at level 10, x pattern, m at level 100, k at level 200) : js_scope.

(** Truthiness: [undefined], [null], [false], [0] and [''] are falsy. *)
Definition truthy (v : jsval) : bool :=
  match v with
  | None | Some JNull => false
  | Some (JBool b) => b
  | Some (JNum q) => negb (Qeq_bool q 0)
  | Some (JStr s) => negb (String.eqb s EmptyString)
  | Some (JArr _) | Some (JObj _) => true
  end.

(** [typeof v === 'object'], which holds of [null] too. *)
Definition typeof_object (v : json) : bool :=
  match v with
  | JNull | JArr _ | JObj _ => true
  | _ => false
  end.

(** [Array.isArray(v)] *)
Definition isArray (v : jsval) : bool :=
  match v with
  | Some (JArr _) => true
  | _ => false
  end.

(** [v.p] for the property names the client reads ([error], [message],
    [code], [result], [content], [text], [results], [data], [score],
    [metadata]): a member of an object, nothing on an array or a
    primitive, a [TypeError] on [null] and [undefined]. *)
Definition get_prop (v : jsval) (p : string) : Result jsval :=
  match v with
  | None => inl (TypeError "Cannot read properties of undefined")
  | Some JNull => inl (TypeError "Cannot read properties of null")
  | Some (JObj o) => inr (assoc p o)
  | Some _ => inr undefined
  end.

(** [p in v] for [p] one of ['error'] and ['result']: a [TypeError]
    unless [v] is an object or an array. *)
Definition has_prop (p : string) (v : json) : Result bool :=
  match v with
  | JObj o => inr (match assoc p o with Some _ => true | None => false end)
  | JArr _ => inr false
  | _ => inl (TypeError "Cannot use 'in' operator to search for a key in a primitive")
  end.

(** What the engine does and the client only calls. *)
Class Runtime := {
  (** [JSON.parse(text)], [None] when it throws a [SyntaxError]. *)
  JSON_parse : string -> option json;
  (** [String(v)], the coercion [JSON.parse] and [>] apply to a value
      that is no string. *)
  ToString : json -> string;
  (** [Number(s) > 0] for a string [s]. *)
  string_gt_zero : string -> bool;
  (** [JSON.stringify(v)] *)
  JSON_stringify : jsval -> string;
  (** The empty text is no JSON text. *)
  JSON_parse_empty : JSON_parse EmptyString = None
}.

Section Client.

Context {runtime : Runtime}.

(** [JSON.parse(v)], which first coerces [v] to a string. *)
Definition parse_value (v : json) : Result json :=
  let text := match v with JStr s => s | _ => ToString v end in
  match JSON_parse text with
  | Some parsed => inr parsed
  | None => inl (SyntaxError "Unexpected token in JSON")
  end.

(** [v > 0] *)
Definition gt_zero (v : jsval) : bool :=
  match v with
  | None => false
  | Some JNull => false
  | Some (JBool b) => b
  | Some (JNum q) => negb (Qle_bool q 0)
  | Some (JStr s) => string_gt_zero s
  | Some (JArr l) => string_gt_zero (ToString (JArr l))
  | Some (JObj _) => false
  end.

(** [v.length > 0] for a truthy [v] (there is no [null.length]). *)
Definition length_gt_zero (v : json) : bool :=
  match v with
  | JArr l => negb (Nat.eqb (List.length l) 0)
  | JStr s => negb (Nat.eqb (String.length s) 0)
  | JObj o => gt_zero (assoc "length" o)
  | _ => false
  end.

(** The class of the [Error] object a failure stands for: every failure
    the client builds itself is a plain [Error]. *)
Definition error_class (f : Failure) : string :=
  match f with
  | SyntaxError _ => "SyntaxError"
  | TypeError _ => "TypeError"
  | AxiosError _ => "AxiosError"
  | QuotaExceeded _ => "QuotaExceededError"
  | _ => "Error"
  end.

(** [`${v}`] *)
Definition interpolate (v : jsval) : string :=
  match v with
  | None => "undefined"
  | Some (JStr s) => s
  | Some v' => ToString v'
  end.

(** [error.message], from the templates of the source; [`${error}`] prints
    the class, a colon and the message, and the class alone when the message
    is empty. *)
Fixpoint message (f : Failure) : string :=
  let print (e : Failure) :=
    match message e with
    | EmptyString => error_class e
    | text => error_class e +:+ ": " +:+ text
    end in
  match f with
  | TokenRequired => "OAuth token is required to access FastMCP"
  | AuthInitFailed cause =>
      "Failed to initialize OAuth authentication: " +:+ message cause
  | JsonRpcFailure msg code =>
      "JSON-RPC Error: " +:+ interpolate msg
        +:+ " (Code: " +:+ interpolate code +:+ ")"
  | SSEParseFailed cause => "Failed to parse SSE response: " +:+ print cause
  | NoDataLine => "No data line found in SSE response"
  | NetworkFailure url =>
      "Network error connecting to FastMCP server at " +:+ url
        +:+ ". Please check if the server is running and accessible."
  | ServerFailure status statusText data =>
      "FastMCP server returned error " +:+ Number_toString status +:+ ": "
        +:+ statusText +:+ String "010" ("Response: " +:+ JSON_stringify data)
        +:+ String "010" "Please check your OAuth token and API documentation."
  | NoResponse url =>
      "No response received from FastMCP server. Please check the server URL: "
        +:+ url
  | CallToolFailed tool cause =>
      "Failed to call tool " +:+ tool +:+ ": " +:+ print cause
  | SyntaxError text => text
  | TypeError text => text
  | QuotaExceeded text => text
  | AxiosError e => ax_message e
  end.

(** [`${error}`] *)
Definition error_toString (f : Failure) : string :=
  match message f with
  | EmptyString => error_class f
  | text => error_class f +:+ ": " +:+ text
  end.

(** ** Transport and response normaliser *)

(** The scan for the first line that starts with ['data: ']; the empty
    string when there is none. *)
Fixpoint find_data_line (lines : list string) : string :=
  match lines with
  | [] => EmptyString
  | line :: lines' =>
      if startsWith "data: " line then substring_from 6 line
      else find_data_line lines'
  end.

(** The body of the inner [try] of the SSE branch. *)
Definition parse_sse (dataLine : string) : Result json :=
  let? parsedSSE := parse_value (JStr dataLine) in
  let? error := get_prop (Some parsedSSE) "error" in
  if truthy error then
    let? message := get_prop error "message" in
    let? code := get_prop error "code" in
    inl (JsonRpcFailure message code)
  else
    let? result := get_prop (Some parsedSSE) "result" in
    let fallback := inr (if truthy result then default parsedSSE result else parsedSSE) in
    let? contentArray :=
      (if truthy result then get_prop result "content" else inr result) in
    if truthy contentArray then
      match contentArray with
      | Some (JArr (firstContent :: _)) =>
          let? text := get_prop (Some firstContent) "text" in
          if truthy text then parse_value (default JNull text)
          else fallback
      | _ => fallback
      end
    else fallback.

(** From [response.data] to the payload: the part of [callTool]'s [try]
    block that follows the request. *)
Definition normalize (data : json) : Result json :=
  match data with
  | JStr body =>
      let dataLine := find_data_line (split_lines body) in
      if truthy (Some (JStr dataLine)) then
        match parse_sse dataLine with
        | inr payload => inr payload
        | inl parseError => inl (SSEParseFailed parseError)
        end
      else inl NoDataLine
  | responseData =>
      let? has_error :=
        (if typeof_object responseData
            && negb (match responseData with JNull => true | _ => false end)
         then has_prop "error" responseData
         else inr false) in
      if has_error then
        let? errorData := get_prop (Some responseData) "error" in
        let? message := get_prop errorData "message" in
        let? code := get_prop errorData "code" in
        inl (JsonRpcFailure message code)
      else
        let? has_result := has_prop "result" responseData in
        if has_result then
          let? result := get_prop (Some responseData) "result" in
          inr (default JNull result)
        else inr responseData
  end.

(** How an exchange over axios ends: a 2xx response with its decoded
    body, or a rejection. *)
Inductive HttpOutcome : Type :=
| Resolved (data : json)
| Rejected (e : AxiosFailure).

(** The request interceptor: the bearer token, if one is held. *)
Definition authorization (w : World) : option string :=
  if truthy_string (accessToken w) then accessToken w else None.

Definition post (tool : string) (arguments : json) (o : HttpOutcome) : M json :=
  fun w =>
    let w' := emit (EvPost (authorization w) tool arguments) w in
    match o with
    | Resolved data => (inr data, w')
    | Rejected e => (inl (AxiosError e), w')
    end.

Definition get_root (o : HttpOutcome) : M json :=
  fun w =>
    let w' := emit (EvGet (authorization w)) w in
    match o with
    | Resolved data => (inr data, w')
    | Rejected e => (inl (AxiosError e), w')
    end.

(** The [catch] clause of [callTool]. *)
Definition callTool_catch {A} (toolName : string) (error : Failure) : M A :=
  let* url := gets baseUrl in
  match error with
  | AxiosError e =>
      if match ax_code e with
         | Some c => String.eqb c "NETWORK_ERROR"
         | None => false
         end || includes "Network Error" (ax_message e)
      then throw (NetworkFailure url)
      else
        match ax_response e with
        | Some (status, statusText, responseData) =>
            throw (ServerFailure status statusText responseData)
        | None =>
            if ax_request e then throw (NoResponse url)
            else throw (CallToolFailed toolName error)
        end
  | _ => throw (CallToolFailed toolName error)
  end.

(** [if (!this.accessToken) await this.initializeAuth()] *)
Definition ensure_auth (a : PromptAnswer) : M unit :=
  let* token := gets accessToken in
  if negb (truthy_string token) then initializeAuth a else ret tt.

(** The [try] statement of [callTool]: the request, the normaliser and
    the [catch] clause. *)
Definition exchange (o : HttpOutcome)
    (toolName : string) (parameters : json) : M json :=
  try_catch
    (let* data := post toolName parameters o in
     lift (normalize data))
    (callTool_catch toolName).

Definition callTool (a : PromptAnswer) (o : HttpOutcome)
    (toolName : string) (parameters : json) : M json :=
  ensure_auth a;;
  exchange o toolName parameters.

(** The branch of [search] that picks the value of [results]. *)
Definition pick_results (result : json) : Result json :=
  if truthy (Some result) && typeof_object result then
    let? top := get_prop (Some result) "results" in
    if truthy top && isArray top then inr (default JNull top)
    else
      let? data := get_prop (Some result) "data" in
      let? nested := (if truthy data then get_prop data "results" else inr data) in
      if truthy nested then inr (default JNull nested)
      else if isArray (Some result) then inr result
      else
        let? content := get_prop (Some result) "content" in
        if truthy content then inr (JArr [result])
        else inr (JArr [])
  else inr (JArr []).

(** The logging loop: it reads three properties of every element. *)
Fixpoint log_results (results : list json) : Result unit :=
  match results with
  | [] => inr tt
  | result :: rest =>
      let? _ := get_prop (Some result) "content" in
      let? _ := get_prop (Some result) "score" in
      let? _ := get_prop (Some result) "metadata" in
      log_results rest
  end.

(** What [search] does with the payload of [callTool]. *)
Definition extract_results (result : json) : Result (list json) :=
  let? results := pick_results result in
  if length_gt_zero results then
    match results with
    | JArr items => let? _ := log_results items in inr items
    | _ => inl (TypeError "forEach is not a function")
    end
  else inr [].

Definition search_arguments (searchText searchType : string) : json :=
  JObj [("search_text", JStr searchText); ("search_type", JStr searchType)].

Definition search (a : PromptAnswer) (o : HttpOutcome)
    (searchText searchType : string) : M (list json) :=
  try_catch
    (let* result := callTool a o "search" (search_arguments searchText searchType) in
     lift (extract_results result))
    (fun error => throw error).

(** [o] is the outcome of the trial search's request, [ping] that of
    the GET against the root. *)
Definition testConnection (a : PromptAnswer) (o ping : HttpOutcome) : M bool :=
  try_catch
    (let* testResult := search a o "test connection" "hybrid" in
     if truthy (Some (JArr testResult)) then ret true else ret true)
    (fun error =>
       try_catch
         (let* pingResponse := get_root ping in ret true)
         (fun pingError => ret false)).

End Client.

(** ** Vocabulary of the statements *)

Definition decimal_digits : list ascii :=
  ["0"; "1"; "2"; "3"; "4"; "5"; "6"; "7"; "8"; "9"]%char.

Definition storage_reads : list Event :=
  [EvGetItem token_key; EvGetItem expiry_key].

(** The world after the two storage reads that open [initializeAuth]. *)
Definition after_reads (w : World) : World :=
  emit (EvGetItem expiry_key) (emit (EvGetItem token_key) w).

(** The persisted expiry as [initializeAuth] reads it. *)
Definition stored_expiry (w : World) : option Z :=
  match localStorage w !! expiry_key with
  | Some s => parseInt s
  | None => None
  end.

(** The stored token, when [initializeAuth] will take it: it is not empty
    and the stored expiry is ahead of the clock. *)
Definition stored_valid_token (w : World) : option string :=
  match localStorage w !! token_key, stored_expiry w with
  | Some tok, Some e =>
      if truthy_string (Some tok) && (clock w <? e) then Some tok else None
  | _, _ => None
  end.

(** The dialog path of [initializeAuth], entered from the world [w0] in
    which the two storage reads have been made. *)
Definition acquire_by_prompt (a : PromptAnswer) (w0 : World) : Result unit * World :=
  let w1 := set_clock (clock w0 + took a) (emit EvPrompt w0) in
  match typed a with
  | Some t =>
      match trim t with
      | EmptyString => (inl (AuthInitFailed TokenRequired), w1)
      | tok =>
          let expiry := Number_toString (clock w1 + 3600000) in
          let w2 := set_accessToken (Some tok) w1 in
          let stored := <[token_key := tok]> (localStorage w0) in
          match write_error w0 (localStorage w0) token_key tok with
          | Some text => (inl (AuthInitFailed (QuotaExceeded text)), w2)
          | None =>
              match write_error w0 stored expiry_key expiry with
              | Some text =>
                  (inl (AuthInitFailed (QuotaExceeded text)),
                   set_localStorage stored w2)
              | None =>
                  (inr tt, set_localStorage (<[expiry_key := expiry]> stored) w2)
              end
          end
      end
  | None => (inl (AuthInitFailed TokenRequired), w1)
  end.

(** The message of the first of the two writes of [initializeAuth] that
    the browser refuses, if it refuses one. *)
Definition refused_write (w : World) (tok expiry : string) : option string :=
  match write_error w (localStorage w) token_key tok with
  | Some text => Some text
  | None =>
      write_error w (<[token_key := tok]> (localStorage w)) expiry_key expiry
  end.

(** The events a run from [w] to [w'] has added. *)
Definition events_since (w w' : World) : list Event :=
  drop (length (trace w)) (trace w').


(** A line of a body holds no line feed. *)
Fixpoint no_newline (s : string) : bool :=
  match s with
  | String c s' => negb (Ascii.eqb c "010") && no_newline s'
  | EmptyString => true
  end.

Definition not_null (v : json) : Prop := v <> JNull.

(** A member of an object; anything else has none. *)
Definition member (p : string) (v : jsval) : jsval :=
  match v with
  | Some (JObj o) => assoc p o
  | _ => None
  end.

Definition as_array (v : jsval) : option (list json) :=
  match v with
  | Some (JArr items) => Some items
  | _ => None
  end.

(** The extraction precedence in the specification's words: a top-level
    [results] array; else a nested [data.results] array; else the payload
    itself if it is an array; else the payload alone if it has a [content]
    field; else nothing. *)
Definition spec_precedence (payload : json) : list json :=
  match as_array (member "results" (Some payload)) with
  | Some rs => rs
  | None =>
      match as_array (member "results" (member "data" (Some payload))) with
      | Some rs => rs
      | None =>
          match payload with
          | JArr items => items
          | _ =>
              match member "content" (Some payload) with
              | Some _ => [payload]
              | None => []
              end
          end
      end
  end.

(** The same precedence with the test the code makes on [content]: the
    field has to be truthy. *)
Definition precedence (payload : json) : list json :=
  match as_array (member "results" (Some payload)) with
  | Some rs => rs
  | None =>
      match as_array (member "results" (member "data" (Some payload))) with
      | Some rs => rs
      | None =>
          match payload with
          | JArr items => items
          | _ => if truthy (member "content" (Some payload)) then [payload] else []
          end
      end
  end.

(** A nested [data.results] that is truthy is an array. *)
Definition nested_results_regular (payload : json) : Prop :=
  truthy (member "results" (member "data" (Some payload))) = true ->
  isArray (member "results" (member "data" (Some payload))) = true.

(** ** A runtime for the examples

    A reader for the JSON texts the examples use: objects, arrays, strings
    with the escapes of quote, backslash, slash and newline, decimal numbers
    without exponent, and the three literals. *)

Module MiniJson.

Definition quote : ascii := "034"%char.
Definition backslash : ascii := "092"%char.

Definition is_space (c : ascii) : bool :=
  Ascii.eqb c " " || Ascii.eqb c "009" || Ascii.eqb c "010" || Ascii.eqb c "013".

Fixpoint skip (s : string) : string :=
  match s with
  | String c r => if is_space c then skip r else s
  | EmptyString => EmptyString
  end.

(** The characters up to the closing quote, and what follows it. *)
Fixpoint read_string (s : string) : option (string * string) :=
  match s with
  | EmptyString => None
  | String c r =>
      if Ascii.eqb c quote then Some (EmptyString, r)
      else if Ascii.eqb c backslash then
        match r with
        | String e r' =>
            let decoded :=
              if Ascii.eqb e "n" then Some "010"%char
              else if Ascii.eqb e quote || Ascii.eqb e backslash || Ascii.eqb e "/"
              then Some e else None in
            match decoded, read_string r' with
            | Some d, Some (t, rest) => Some (String d t, rest)
            | _, _ => None
            end
        | EmptyString => None
        end
      else
        match read_string r with
        | Some (t, rest) => Some (String c t, rest)
        | None => None
        end
  end.

(** Value and number of the leading decimal digits, and what follows. *)
Fixpoint read_digits (s : string) (acc : Z) (count : nat) : Z * nat * string :=
  match s with
  | String c r =>
      match digit_value c with
      | Some d => if d <? 10 then read_digits r (10 * acc + d) (S count)
                  else (acc, count, s)
      | None => (acc, count, s)
      end
  | EmptyString => (acc, count, s)
  end.

Definition read_number (s : string) : option (json * string) :=
  let '(neg, s1) :=
    match s with
    | String c r => if Ascii.eqb c "-" then (true, r) else (false, s)
    | EmptyString => (false, s)
    end in
  let '(int, n, s2) := read_digits s1 0 O in
  let sign (q : Q) := if neg : bool then Qopp q else q in
  match n with
  | O => None
  | S _ =>
      match s2 with
      | String "." r =>
          let '(frac, k, s3) := read_digits r 0 O in
          match k with
          | O => None
          | S _ =>
              let scale := Z.to_pos (10 ^ Z.of_nat k) in
              Some (JNum (sign (Qred (Qmake (int * Z.pos scale + frac) scale))), s3)
          end
      | _ => Some (JNum (sign (inject_Z int)), s2)
      end
  end.

(** A later binding of a key replaces an earlier one. *)
Definition add_member (k : string) (v : json) (later : list (string * json))
  : list (string * json) :=
  match assoc k later with
  | Some _ => later
  | None => (k, v) :: later
  end.

Fixpoint read_value (fuel : nat) (s : string) : option (json * string) :=
  match fuel with
  | O => None
  | S fuel' =>
      match skip s with
      | EmptyString => None
      | String c r =>
          if Ascii.eqb c quote then
            match read_string r with
            | Some (t, rest) => Some (JStr t, rest)
            | None => None
            end
          else if Ascii.eqb c "[" then
            match skip r with
            | String "]" rest => Some (JArr [], rest)
            | r0 =>
                match
                  (fix items (n : nat) (s : string) : option (list json * string) :=
                     match n with
                     | O => None
                     | S n' =>
                         match read_value fuel' s with
                         | Some (v, s1) =>
                             match skip s1 with
                             | String "," s2 =>
                                 match items n' s2 with
                                 | Some (vs, rest) => Some (v :: vs, rest)
                                 | None => None
                                 end
                             | String "]" rest => Some ([v], rest)
                             | _ => None
                             end
                         | None => None
                         end
                     end) fuel' r0
                with
                | Some (vs, rest) => Some (JArr vs, rest)
                | None => None
                end
            end
          else if Ascii.eqb c "{" then
            match skip r with
            | String "}" rest => Some (JObj [], rest)
            | r0 =>
                match
                  (fix members (n : nat) (s : string)
                     : option (list (string * json) * string) :=
                     match n with
                     | O => None
                     | S n' =>
                         match skip s with
                         | String q s0 =>
                             if Ascii.eqb q quote then
                               match read_string s0 with
                               | Some (k, s1) =>
                                   match skip s1 with
                                   | String ":" s2 =>
                                       match read_value fuel' s2 with
                                       | Some (v, s3) =>
                                           match skip s3 with
                                           | String "," s4 =>
                                               match members n' s4 with
                                               | Some (ms, rest) =>
                                                   Some (add_member k v ms, rest)
                                               | None => None
                                               end
                                           | String "}" rest => Some ([(k, v)], rest)
                                           | _ => None
                                           end
                                       | None => None
                                       end
                                   | _ => None
                                   end
                               | None => None
                               end
                             else None
                         | EmptyString => None
                         end
                     end) fuel' r0
                with
                | Some (ms, rest) => Some (JObj ms, rest)
                | None => None
                end
            end
          else if String.prefix "true" (String c r)
          then Some (JBool true, substring_from 4 (String c r))
          else if String.prefix "false" (String c r)
          then Some (JBool false, substring_from 5 (String c r))
          else if String.prefix "null" (String c r)
          then Some (JNull, substring_from 4 (String c r))
          else read_number (String c r)
      end
  end.

(** A whole text is one value with white space around it. *)
Definition parse (text : string) : option json :=
  match read_value (String.length text) text with
  | Some (v, rest) =>
      match skip rest with
      | EmptyString => Some v
      | _ => None
      end
  | None => None
  end.

(** The digits after the decimal point of [r / d], for [0 <= r < d]. *)
Fixpoint fraction_digits (fuel : nat) (r d : Z) : string :=
  match fuel with
  | O => EmptyString
  | S fuel' =>
      if r =? 0 then EmptyString
      else String (digit_char (10 * r / d)) (fraction_digits fuel' (10 * r mod d) d)
  end.

(** A number in decimal notation, exact when its expansion is short. *)
Definition print_number (q : Q) : string :=
  let n := Z.abs (Qnum q) in
  let d := Z.pos (Qden q) in
  (if Qnum q <? 0 then "-" else EmptyString)
    +:+ Number_toString (n / d)
    +:+ (if n mod d =? 0 then EmptyString
         else "." +:+ fraction_digits 17 (n mod d) d).

(** [String(v)] *)
Fixpoint to_string (v : json) : string :=
  match v with
  | JNull => "null"
  | JBool true => "true"
  | JBool false => "false"
  | JNum q => print_number q
  | JStr s => s
  | JArr items =>
      (fix join (l : list json) : string :=
         match l with
         | [] => EmptyString
         | x :: rest =>
             let head := match x with JNull => EmptyString | _ => to_string x end in
             match rest with
             | [] => head
             | _ => head +:+ "," +:+ join rest
             end
         end) items
  | JObj _ => "[object Object]"
  end.

Fixpoint escape (s : string) : string :=
  match s with
  | EmptyString => EmptyString
  | String c r =>
      if Ascii.eqb c quote || Ascii.eqb c backslash
      then String backslash (String c (escape r))
      else if Ascii.eqb c "010" then String backslash (String "n" (escape r))
      else String c (escape r)
  end.

Definition quoted (s : string) : string :=
  String quote (escape s +:+ String quote EmptyString).

Fixpoint stringify_value (v : json) : string :=
  match v with
  | JNull => "null"
  | JBool true => "true"
  | JBool false => "false"
  | JNum q => print_number q
  | JStr s => quoted s
  | JArr items =>
      "[" +:+
      (fix join (l : list json) : string :=
         match l with
         | [] => EmptyString
         | [x] => stringify_value x
         | x :: rest => stringify_value x +:+ "," +:+ join rest
         end) items +:+ "]"
  | JObj members =>
      "{" +:+
      (fix join (l : list (string * json)) : string :=
         match l with
         | [] => EmptyString
         | [(k, x)] => quoted k +:+ ":" +:+ stringify_value x
         | (k, x) :: rest => quoted k +:+ ":" +:+ stringify_value x +:+ "," +:+ join rest
         end) members +:+ "}"
  end.

(** [`${JSON.stringify(v)}`] *)
Definition stringify (v : jsval) : string :=
  match v with
  | Some v' => stringify_value v'
  | None => "undefined"
  end.

(** [Number(s) > 0] for the decimal integers. *)
Definition positive_text (s : string) : bool :=
  let '(n, count, rest) := read_digits (trim s) 0 O in
  negb (Nat.eqb count 0) && String.eqb rest EmptyString && (0 <? n).

End MiniJson.

#[export] Instance example_runtime : Runtime := {|
  JSON_parse := MiniJson.parse;
  ToString := MiniJson.to_string;
  string_gt_zero := MiniJson.positive_text;
  JSON_stringify := MiniJson.stringify;
  JSON_parse_empty := eq_refl
|}.

Module Examples.

Definition q : string := String MiniJson.quote EmptyString.

Definition never : gmap string string -> string -> string -> option string :=
  fun _ _ _ => None.

Definition world0 : World :=
  mkWorld "https://example.test" None ∅ 1000 [] never.


(** A client that holds the token [tok], acquired at time 1000 and
    persisted with the expiry 3601000, which has passed at the time of the
    call (3700000). *)
Definition stale_world : World :=
  mkWorld "https://example.test" (Some "tok")
    (<[expiry_key := "3601000"]> (<[token_key := "tok"]> ∅)) 3700000 [] never.


Definition answer : PromptAnswer := mkAnswer 5 (Some "  secret ").
Definition no_answer : PromptAnswer := mkAnswer 0 None.

Definition hello : json :=
  JObj [("content", JStr "hello"); ("score", JNum (9 # 10))].
Definition world_record : json :=
  JObj [("content", JStr "world")].

(** [{"error":{"code":7,"message":"bad"}}] *)
Definition error_text : string :=
  "{" +:+ q +:+ "error" +:+ q +:+ ":{" +:+ q +:+ "code" +:+ q +:+ ":7,"
      +:+ q +:+ "message" +:+ q +:+ ":" +:+ q +:+ "bad" +:+ q +:+ "}}".
Definition error_envelope : json :=
  JObj [("error", JObj [("code", JNum 7); ("message", JStr "bad")])].
Definition error_stream : string :=
  "event: message" +:+ String "010" ("data: " +:+ error_text).



Definition plain_envelope : json :=
  JObj [("jsonrpc", JStr "2.0"); ("id", JNum 1);
        ("result", JObj [("results", JArr [hello; world_record])])].

Definition refused : AxiosFailure :=
  mkAxiosFailure (Some "ERR_BAD_REQUEST") "Request failed with status code 401"
    (Some (401, "Unauthorized", None)) true.

End Examples.

(** ** The factory

    [createFastMCPClient] picks the server URL, removes a final ['/mcp']
    from it and builds the client around the result; the client then posts
    to ['/mcp'] below that base. *)

(** [process.env], as far as the factory reads it. *)
Record ProcessEnv := mkEnv {
  REACT_APP_MCP_SERVER_URL : option string;
  NODE_ENV : option string
}.

Definition default_server_url : string := "https://escalationbot.fastmcp.app/mcp".

(** [s.replace(/\/mcp$/, '')] *)
Fixpoint strip_mcp (s : string) : string :=
  match s with
  | EmptyString => EmptyString
  | String c s' =>
      if String.eqb s "/mcp" then EmptyString else String c (strip_mcp s')
  end.

(** [a || b || c] on strings that may be undefined. *)
Definition first_truthy (a b : option string) (c : string) : string :=
  if truthy_string a then default c a
  else if truthy_string b then default c b
  else c.

Definition client_base_url (env : ProcessEnv) (baseUrl : option string) : string :=
  let mcpServerUrl :=
    first_truthy (REACT_APP_MCP_SERVER_URL env) baseUrl default_server_url in
  let cleanUrl := strip_mcp mcpServerUrl in
  let isDevelopment :=
    match NODE_ENV env with
    | Some mode => String.eqb mode "development"
    | None => false
    end in
  if isDevelopment then EmptyString else cleanUrl.

(** The client as the constructor leaves it, in a browser whose storage,
    clock and refusals of writes are [storage], [now] and [quota]: no token
    in memory, nothing asked yet. *)
Definition createFastMCPClient (env : ProcessEnv) (baseUrl : option string)
    (storage : gmap string string) (now : Z)
    (quota : gmap string string -> string -> string -> option string) : World :=
  mkWorld (client_base_url env baseUrl) None storage now [] quota.

(** The address of a request as [callTool] logs it: [`${this.baseUrl}/mcp`]. *)
Definition request_url (w : World) : string := baseUrl w +:+ "/mcp".

(** [s.endsWith(t)] *)
Fixpoint ends_with (t s : string) : bool :=
  String.eqb s t ||
  match s with
  | String _ s' => ends_with t s'
  | EmptyString => false
  end.


(** The user gave the dialog nothing to work with: it was cancelled, or
    what was typed is empty once trimmed. *)
Definition blank (a : PromptAnswer) : Prop :=
  match typed a with
  | Some t => trim t = EmptyString
  | None => True
  end.

(** ** The search form ([SearchComponent.tsx])

    The component keeps five state variables; a handler reads the ones of
    the render it belongs to and sets some of them.  The handlers are
    modelled, the render is not. *)

Module SearchComponent.

Record State := mkState {
  searchText : string;
  searchType : string;
  results : list json;
  loading : bool;
  error : option string
}.

Definition initial : State :=
  mkState "What is ControlUp for Apps?" "hybrid" [] false None.

Definition setResults (rs : list json) (s : State) : State :=
  mkState (searchText s) (searchType s) rs (loading s) (error s).
Definition setLoading (b : bool) (s : State) : State :=
  mkState (searchText s) (searchType s) (results s) b (error s).
Definition setError (e : option string) (s : State) : State :=
  mkState (searchText s) (searchType s) (results s) (loading s) e.

(** The state while the request of [handleSearch] is under way. *)
Definition searching (s : State) : State :=
  setResults [] (setError None (setLoading true s)).

(** [handleSearch], from the click to the end of its [finally] block. *)
Definition handleSearch `{Runtime} (a : PromptAnswer) (o : HttpOutcome)
    (s : State) (w : World) : State * World :=
  if String.eqb (trim (searchText s)) EmptyString then
    (setError (Some "Please enter a search query") s, w)
  else
    match search a o (searchText s) (searchType s) w with
    | (inr searchResults, w') =>
        (setLoading false (setResults searchResults (searching s)), w')
    | (inl err, w') =>
        (setLoading false (setError (Some (message err)) (searching s)), w')
    end.

(** The handler of the Clear Auth button. *)
Definition clearAuthClick (s : State) (w : World) : State * World :=
  (setResults [] (setError None s), snd (clearAuth w)).

(** The handler of the Test Connection button: the text of the alert it
    shows. *)
Definition testConnectionClick `{Runtime} (a : PromptAnswer) (o ping : HttpOutcome)
    (w : World) : string * World :=
  match testConnection a o ping w with
  | (inr isConnected, w') =>
      (if isConnected : bool then "Connection test successful!"
       else "Connection test failed. Check console for details.", w')
  | (inl err, w') =>
      ("Connection test error: " +:+ error_toString err, w')
  end.

End SearchComponent.

(** ** The root component ([App.tsx]) *)

Module App.

Record State := mkState {
  client : bool;                  (* a client has been set *)
  isInitializing : bool;
  initError : option string
}.

Definition initial : State := mkState false true None.




End App.
(** ** Facts about the string primitives *)


Lemma digit_char_decimal d :
  0 <= d < 10 -> In (digit_char d) decimal_digits.
Proof.
  intros Hd.
  assert (Hcases : d = 0 \/ d = 1 \/ d = 2 \/ d = 3 \/ d = 4 \/
                   d = 5 \/ d = 6 \/ d = 7 \/ d = 8 \/ d = 9) by lia.
  repeat (destruct Hcases as [-> | Hcases]; [cbv; tauto |]).
  subst d; cbv; tauto.
Qed.

Lemma digit_value_digit_char d :
  0 <= d < 10 -> digit_value (digit_char d) = Some d.
Proof.
  intros Hd.
  assert (Hcases : d = 0 \/ d = 1 \/ d = 2 \/ d = 3 \/ d = 4 \/
                   d = 5 \/ d = 6 \/ d = 7 \/ d = 8 \/ d = 9) by lia.
  repeat (destruct Hcases as [-> | Hcases]; [reflexivity |]).
  subst d; reflexivity.
Qed.

(** Reading back the digits of [n] continues as if [n] had been read. *)
Lemma scan_to_digits fuel : forall n rest,
  0 <= n < 10 * 2 ^ Z.of_nat fuel ->
  scan_digits 10 (to_digits fuel n rest) None = scan_digits 10 rest (Some n).
Proof.
  assert (Hone : forall n rest, 0 <= n < 10 ->
    scan_digits 10 (String (digit_char (n mod 10)) rest) None
    = scan_digits 10 rest (Some n)).
  { intros n rest Hn. rewrite Z.mod_small by lia. simpl.
    rewrite digit_value_digit_char by lia.
    destruct (Z.ltb_spec n 10); [|lia].
    by replace (10 * 0 + n) with n by lia. }
  induction fuel as [|fuel IH]; intros n rest Hn.
  - simpl to_digits. apply Hone. simpl in Hn. lia.
  - cbn [to_digits]. destruct (Z.ltb_spec n 10) as [Hlt|Hge].
    + apply Hone. lia.
    + rewrite IH.
      * simpl. rewrite digit_value_digit_char
          by (apply Z.mod_pos_bound; lia).
        destruct (Z.ltb_spec (n mod 10) 10) as [_|Hbad];
          [|pose proof (Z.mod_pos_bound n 10); lia].
        cbn [default].
        by replace (10 * (n / 10) + n mod 10) with n
          by (pose proof (Z.div_mod n 10); lia).
      * split; [apply Z.div_pos; lia|].
        apply Z.div_lt_upper_bound; [lia|].
        rewrite Nat2Z.inj_succ, Z.pow_succ_r in Hn by lia. lia.
Qed.

(** The head of a printed number is a digit, and so is what follows it,
    if anything. *)
Lemma to_digits_shape fuel : forall n acc,
  0 <= n ->
  exists c s, to_digits fuel n acc = String c s /\ In c decimal_digits /\
    (s = acc \/ exists c' s', s = String c' s' /\ In c' decimal_digits).
Proof.
  induction fuel as [|fuel IH]; intros n acc Hn.
  - simpl. eexists _, _. split; [reflexivity|]. split; [|by left].
    apply digit_char_decimal, Z.mod_pos_bound; lia.
  - cbn [to_digits]. destruct (Z.ltb_spec n 10).
    + eexists _, _. split; [reflexivity|]. split; [|by left].
      apply digit_char_decimal, Z.mod_pos_bound; lia.
    + destruct (IH (n / 10) (String (digit_char (n mod 10)) acc))
        as (c & s & -> & Hc & Hs); [apply Z.div_pos; lia|].
      exists c, s. split; [reflexivity|]. split; [assumption|].
      right. destruct Hs as [-> | Hs]; [|assumption].
      eexists _, _. split; [reflexivity|].
      apply digit_char_decimal, Z.mod_pos_bound; lia.
Qed.

(** On a string of decimal digits [parseInt] is the plain scan. *)
Lemma parseInt_unsigned c s :
  In c decimal_digits ->
  (s = EmptyString \/ exists c' s', s = String c' s' /\ In c' decimal_digits) ->
  parseInt (String c s) = scan_digits 10 (String c s) None.
Proof.
  intros Hc Hs. unfold parseInt.
  assert (Htrim : trimStart (String c s) = String c s).
  { simpl in Hc. intuition (subst; reflexivity). }
  rewrite Htrim.
  assert (Hminus : startsWith "-" (String c s) = false).
  { simpl in Hc. intuition (subst; reflexivity). }
  assert (Hplus : startsWith "+" (String c s) = false).
  { simpl in Hc. intuition (subst; reflexivity). }
  rewrite Hminus, Hplus. cbn [orb].
  assert (Hhex : startsWith "0x" (String c s) || startsWith "0X" (String c s) = false).
  { destruct Hs as [-> | (c' & s' & -> & Hc')].
    - simpl in Hc. intuition (subst; reflexivity).
    - simpl in Hc, Hc'. intuition (subst; reflexivity). }
  rewrite Hhex. by destruct (scan_digits 10 (String c s) None).
Qed.

Lemma parseInt_negative c s :
  In c decimal_digits ->
  (s = EmptyString \/ exists c' s', s = String c' s' /\ In c' decimal_digits) ->
  parseInt (String "-" (String c s))
  = Z.opp <$> scan_digits 10 (String c s) None.
Proof.
  intros Hc Hs. unfold parseInt.
  change (trimStart (String "-" (String c s))) with (String "-" (String c s)).
  change (startsWith "-" (String "-" (String c s))) with true.
  cbn [orb substring_from].
  assert (Hhex : startsWith "0x" (String c s) || startsWith "0X" (String c s) = false).
  { destruct Hs as [-> | (c' & s' & -> & Hc')].
    - simpl in Hc. intuition (subst; reflexivity).
    - simpl in Hc, Hc'. intuition (subst; reflexivity). }
  rewrite Hhex. by destruct (scan_digits 10 (String c s) None).
Qed.

Lemma log2_fuel n :
  0 <= n -> 0 <= n < 10 * 2 ^ Z.of_nat (Z.to_nat (Z.log2 n)).
Proof.
  intros Hn. split; [assumption|]. rewrite Z2Nat.id by apply Z.log2_nonneg.
  destruct (Z.eq_dec n 0) as [-> | Hne]; [reflexivity|].
  pose proof (Z.log2_spec n ltac:(lia)) as [_ Hup].
  rewrite Z.pow_succ_r in Hup by apply Z.log2_nonneg. lia.
Qed.

(** [parseInt(n.toString())] is [n]. *)
Lemma parseInt_Number_toString n :
  parseInt (Number_toString n) = Some n.
Proof.
  unfold Number_toString. destruct (Z.ltb_spec n 0) as [Hneg | Hpos].
  - destruct (to_digits_shape (Z.to_nat (Z.log2 (- n))) (- n) EmptyString)
      as (c & s & Heq & Hc & Hs); [lia|].
    pose proof (scan_to_digits _ (- n) EmptyString (log2_fuel (- n) ltac:(lia)))
      as Hscan.
    rewrite Heq in Hscan |- *. rewrite parseInt_negative by assumption.
    rewrite Hscan. simpl. f_equal. lia.
  - destruct (to_digits_shape (Z.to_nat (Z.log2 n)) n EmptyString)
      as (c & s & Heq & Hc & Hs); [lia|].
    pose proof (scan_to_digits _ n EmptyString (log2_fuel n Hpos)) as Hscan.
    rewrite Heq in Hscan |- *. rewrite parseInt_unsigned by assumption.
    exact Hscan.
Qed.



(** ** Facts about the token manager *)

Ltac js_unfold :=
  cbv beta iota zeta delta
    [initializeAuth clearAuth close try_catch bind ret throw gets modify lift
     getItem setItem removeItem getTime prompt];
  cbn [set_accessToken set_localStorage set_clock emit after_reads andb orb negb
     baseUrl accessToken localStorage clock trace write_error
     fst snd default from_option id].

Ltac dialog_path a :=
  unfold acquire_by_prompt, throw;
  destruct (typed a) as [[|?c ?t]|]; try reflexivity;
  cbn [truthy_string negb orb default from_option id];
  match goal with |- context [trim ?s] => destruct (trim s) end;
  try reflexivity;
  cbn [String.eqb Ascii.eqb eqb set_accessToken set_localStorage set_clock emit
       after_reads baseUrl accessToken localStorage clock trace write_error];
  repeat (match goal with
          | |- context [write_error ?w ?s ?k ?v] =>
              destruct (write_error w s k v)
          end;
          cbv beta iota;
          cbn [set_accessToken set_localStorage set_clock emit after_reads
               baseUrl accessToken localStorage clock trace write_error]);
  reflexivity.

Lemma keys_differ : token_key <> expiry_key.
Proof. discriminate. Qed.

Lemma trace_after_reads w : trace (after_reads w) = trace w ++ storage_reads.
Proof. unfold after_reads, emit, storage_reads. simpl. by rewrite <- app_assoc. Qed.

Lemma truthy_string_Some s : s <> EmptyString -> truthy_string (Some s) = true.
Proof. by destruct s. Qed.

Lemma truthy_string_inv o :
  truthy_string o = true -> exists s, o = Some s /\ s <> EmptyString.
Proof. destruct o as [[|c s]|]; try discriminate. eauto. Qed.

(** The stored-token fast path of [initializeAuth]. *)
Lemma initializeAuth_stored a w tok e :
  localStorage w !! token_key = Some tok ->
  tok <> EmptyString ->
  stored_expiry w = Some e ->
  clock w < e ->
  initializeAuth a w = (inr tt, set_accessToken (Some tok) (after_reads w)).
Proof.
  intros Htok Hne Hexp Hlt. unfold stored_expiry in Hexp.
  destruct (localStorage w !! expiry_key) as [es|] eqn:Hes; [|discriminate].
  assert (Hes_ne : es <> EmptyString) by (intros ->; discriminate).
  js_unfold. rewrite Htok, Hes.
  rewrite !truthy_string_Some by assumption. js_unfold.
  unfold before_expiry. rewrite Hexp.
  destruct (Z.ltb_spec (clock w) e); [reflexivity|lia].
Qed.

(** [initializeAuth] either reuses a stored token that has not expired or
    opens the dialog. *)
Lemma initializeAuth_cases a w :
  (exists tok e,
      localStorage w !! token_key = Some tok /\ tok <> EmptyString /\
      stored_expiry w = Some e /\ clock w < e /\
      initializeAuth a w = (inr tt, set_accessToken (Some tok) (after_reads w)))
  \/ initializeAuth a w = acquire_by_prompt a (after_reads w).
Proof.
  destruct (truthy_string (localStorage w !! token_key)
            && truthy_string (localStorage w !! expiry_key)) eqn:Hboth.
  - pose proof Hboth as Hboth'.
    apply andb_prop in Hboth' as [Ht He].
    apply truthy_string_inv in Ht as (tok & Htok & Hne).
    apply truthy_string_inv in He as (es & Hes & _).
    destruct (parseInt es) as [e|] eqn:Hparse.
    + destruct (Z.ltb_spec (clock w) e) as [Hlt|Hge].
      * left. exists tok, e. unfold stored_expiry. rewrite Hes.
        repeat split; try assumption.
        apply initializeAuth_stored with e; try assumption.
        unfold stored_expiry. by rewrite Hes.
      * right. js_unfold. rewrite Hboth, Hes. js_unfold.
        unfold before_expiry. rewrite Hparse.
        destruct (Z.ltb_spec (clock w) e); [lia|].
        dialog_path a.
    + right. js_unfold. rewrite Hboth, Hes. js_unfold.
      unfold before_expiry. rewrite Hparse. dialog_path a.
  - right. js_unfold. rewrite Hboth. js_unfold. dialog_path a.
Qed.

Lemma acquire_by_prompt_success a w0 w1 :
  acquire_by_prompt a w0 = (inr tt, w1) ->
  exists t tok,
    typed a = Some t /\ tok = trim t /\ tok <> EmptyString /\
    accessToken w1 = Some tok /\
    localStorage w1 =
      <[expiry_key := Number_toString (clock w0 + took a + 3600000)]>
        (<[token_key := tok]> (localStorage w0)) /\
    clock w1 = clock w0 + took a /\
    trace w1 = trace w0 ++ [EvPrompt].
Proof.
  unfold acquire_by_prompt. destruct (typed a) as [t|]; [|discriminate].
  destruct (trim t) as [|c tok] eqn:Htrim; [discriminate|].
  destruct (write_error w0 _ token_key _); [discriminate|].
  destruct (write_error w0 _ expiry_key _); [discriminate|].
  intros [= <-]. exists t, (String c tok). by rewrite Htrim.
Qed.

Lemma acquire_by_prompt_trace a w0 :
  trace (snd (acquire_by_prompt a w0)) = trace w0 ++ [EvPrompt].
Proof.
  unfold acquire_by_prompt. destruct (typed a) as [t|]; [|reflexivity].
  destruct (trim t); [reflexivity|].
  destruct (write_error w0 _ token_key _); [reflexivity|].
  by destruct (write_error w0 _ expiry_key _).
Qed.

(** What a successful [initializeAuth] leaves behind: a non-empty token in
    memory and in storage, and a parsable expiry that is still ahead. *)
Lemma initializeAuth_success a w w1 :
  initializeAuth a w = (inr tt, w1) ->
  exists tok e,
    tok <> EmptyString /\
    accessToken w1 = Some tok /\
    localStorage w1 !! token_key = Some tok /\
    stored_expiry w1 = Some e /\
    clock w1 < e /\
    ((trace w1 = trace w ++ storage_reads /\
      localStorage w !! token_key = Some tok /\
      localStorage w1 = localStorage w /\ clock w1 = clock w)
     \/
     (trace w1 = trace w ++ storage_reads ++ [EvPrompt] /\
      (exists t, typed a = Some t /\ tok = trim t) /\
      clock w1 = clock w + took a /\
      localStorage w1 !! expiry_key = Some (Number_toString (clock w1 + 3600000)) /\
      e = clock w1 + 3600000)).
Proof.
  intros Hrun.
  destruct (initializeAuth_cases a w)
    as [(tok & e & Htok & Hne & Hexp & Hlt & Heq) | Heq];
    rewrite Heq in Hrun.
  - injection Hrun as <-. exists tok, e. unfold stored_expiry in *.
    cbn [set_accessToken accessToken localStorage clock trace].
    change (localStorage (after_reads w)) with (localStorage w).
    change (clock (after_reads w)) with (clock w).
    rewrite trace_after_reads. repeat split; try assumption.
    left. repeat split; assumption.
  - apply acquire_by_prompt_success in Hrun
      as (t & tok & Hty & Htrim & Hne & Hacc & Hsto & Hclk & Htr).
    change (clock (after_reads w)) with (clock w) in *.
    change (localStorage (after_reads w)) with (localStorage w) in *.
    rewrite trace_after_reads in Htr.
    exists tok, (clock w1 + 3600000). unfold stored_expiry. rewrite Hsto.
    rewrite lookup_insert_eq, parseInt_Number_toString.
    rewrite lookup_insert_ne, lookup_insert_eq by (symmetry; apply keys_differ).
    rewrite Hclk. repeat split; try assumption; try lia.
    right. rewrite <- app_assoc in Htr. repeat split; eauto.
Qed.

Lemma stored_valid_token_Some w tok :
  stored_valid_token w = Some tok ->
  exists e,
    localStorage w !! token_key = Some tok /\ tok <> EmptyString /\
    stored_expiry w = Some e /\ clock w < e.
Proof.
  unfold stored_valid_token.
  destruct (localStorage w !! token_key) as [tok'|]; [|discriminate].
  destruct (stored_expiry w) as [e|]; [|discriminate].
  destruct (truthy_string (Some tok')) eqn:Htruthy; [|discriminate].
  destruct (Z.ltb_spec (clock w) e); [|discriminate].
  intros [= ->]. exists e. repeat split; try assumption.
  by apply truthy_string_inv in Htruthy as (? & [= <-] & ?).
Qed.

(** [initializeAuth] takes the stored token exactly when it is valid. *)
Lemma initializeAuth_by_storage a w :
  initializeAuth a w =
  match stored_valid_token w with
  | Some tok => (inr tt, set_accessToken (Some tok) (after_reads w))
  | None => acquire_by_prompt a (after_reads w)
  end.
Proof.
  destruct (stored_valid_token w) as [tok|] eqn:Hvalid.
  - destruct (stored_valid_token_Some _ _ Hvalid) as (e & Htok & Hne & Hexp & Hlt).
    by apply initializeAuth_stored with e.
  - destruct (initializeAuth_cases a w)
      as [(tok & e & Htok & Hne & Hexp & Hlt & _) | Heq]; [|assumption].
    unfold stored_valid_token in Hvalid.
    rewrite Htok, Hexp, (truthy_string_Some _ Hne) in Hvalid.
    destruct (Z.ltb_spec (clock w) e); [discriminate|lia].
Qed.


(** How the dialog path fails: nothing usable was typed, or the browser
    refused one of the two writes. *)
Lemma acquire_by_prompt_failed a w0 f w1 :
  acquire_by_prompt a w0 = (inl f, w1) ->
  (f = AuthInitFailed TokenRequired /\
   blank a /\
   w1 = set_clock (clock w0 + took a) (emit EvPrompt w0))
  \/
  (exists t text,
     typed a = Some t /\ trim t <> EmptyString /\
     f = AuthInitFailed (QuotaExceeded text) /\
     ((write_error w0 (localStorage w0) token_key (trim t) = Some text /\
       w1 = set_accessToken (Some (trim t))
              (set_clock (clock w0 + took a) (emit EvPrompt w0)))
      \/
      (write_error w0 (localStorage w0) token_key (trim t) = None /\
       write_error w0 (<[token_key := trim t]> (localStorage w0)) expiry_key
         (Number_toString (clock w0 + took a + 3600000)) = Some text /\
       w1 = set_localStorage (<[token_key := trim t]> (localStorage w0))
              (set_accessToken (Some (trim t))
                 (set_clock (clock w0 + took a) (emit EvPrompt w0)))))).
Proof.
  unfold acquire_by_prompt, blank. destruct (typed a) as [t|].
  - destruct (trim t) as [|c tok] eqn:Htrim.
    + intros [= <- <-]. by left.
    + destruct (write_error w0 _ token_key _) as [text|] eqn:Hfirst.
      * intros [= <- <-]. right. exists t, text. rewrite Htrim.
        repeat split; [done|]. by left.
      * destruct (write_error w0 _ expiry_key _) as [text|] eqn:Hsecond;
          [|discriminate].
        intros [= <- <-]. right. exists t, text. rewrite Htrim.
        repeat split; [done|]. by right.
  - intros [= <- <-]. by left.
Qed.

(** The dialog path on a text that is not blank. *)
Lemma acquire_by_prompt_typed a w0 t :
  typed a = Some t -> trim t <> EmptyString ->
  fst (acquire_by_prompt a w0)
  = match refused_write w0 (trim t)
            (Number_toString (clock w0 + took a + 3600000)) with
    | Some text => inl (AuthInitFailed (QuotaExceeded text))
    | None => inr tt
    end.
Proof.
  intros Hty Hne. unfold acquire_by_prompt, refused_write. rewrite Hty.
  destruct (trim t) as [|c tok]; [done|].
  change (clock (set_clock (clock w0 + took a) (emit EvPrompt w0)))
    with (clock w0 + took a).
  destruct (write_error w0 _ token_key _) as [text|]; [reflexivity|].
  by destruct (write_error w0 _ expiry_key _) as [text|].
Qed.

Lemma acquire_by_prompt_baseUrl a w0 :
  baseUrl (snd (acquire_by_prompt a w0)) = baseUrl w0.
Proof.
  unfold acquire_by_prompt. destruct (typed a) as [t|]; [|reflexivity].
  destruct (trim t); [reflexivity|].
  destruct (write_error w0 _ token_key _); [reflexivity|].
  by destruct (write_error w0 _ expiry_key _).
Qed.

Lemma initializeAuth_baseUrl a w :
  baseUrl (snd (initializeAuth a w)) = baseUrl w.
Proof.
  rewrite initializeAuth_by_storage.
  destruct (stored_valid_token w); [reflexivity|].
  by rewrite acquire_by_prompt_baseUrl.
Qed.

(** The failures of [initializeAuth], and where they leave the trace. *)
Lemma initializeAuth_failure_forms a w f w1 :
  initializeAuth a w = (inl f, w1) ->
  (f = AuthInitFailed TokenRequired \/
   exists text, f = AuthInitFailed (QuotaExceeded text)) /\
  trace w1 = trace w ++ storage_reads ++ [EvPrompt] /\
  baseUrl w1 = baseUrl w.
Proof.
  intros Hrun.
  pose proof (initializeAuth_baseUrl a w) as Hurl. rewrite Hrun in Hurl.
  rewrite initializeAuth_by_storage in Hrun.
  destruct (stored_valid_token w); [discriminate|].
  pose proof (acquire_by_prompt_trace a (after_reads w)) as Htr.
  rewrite Hrun, trace_after_reads, <- app_assoc in Htr.
  repeat split; try assumption.
  destruct (acquire_by_prompt_failed _ _ _ _ Hrun)
    as [(-> & _) | (t & text & _ & _ & -> & _)]; eauto.
Qed.



(** C7. Acquiring twice inside the expiry window: when [initializeAuth]
    succeeds it leaves a token [tok] and an expiry [e] behind, and any later
    call made before [e] on the same storage succeeds with the same token,
    after the two storage reads and without opening the dialog.  The first
    call either returned the stored token unchanged, its expiry still ahead,
    or persisted the trimmed text of the dialog with an expiry of exactly
    3600000 ms after the moment the dialog closed. *)
Theorem initializeAuth_twice a1 a2 w w1 :
  initializeAuth a1 w = (inr tt, w1) ->
  exists tok e,
    accessToken w1 = Some tok /\
    localStorage w1 !! token_key = Some tok /\
    stored_expiry w1 = Some e /\
    ((localStorage w !! token_key = Some tok /\
      stored_expiry w = Some e /\ clock w < e /\
      localStorage w1 = localStorage w /\
      trace w1 = trace w ++ storage_reads)
     \/
     ((exists t, typed a1 = Some t /\ tok = trim t) /\
      trace w1 = trace w ++ storage_reads ++ [EvPrompt] /\
      localStorage w1 !! expiry_key = Some (Number_toString (clock w1 + 3600000)) /\
      e = clock w1 + 3600000)) /\
    forall w2,
      localStorage w2 = localStorage w1 ->
      clock w2 < e ->
      initializeAuth a2 w2 = (inr tt, set_accessToken (Some tok) (after_reads w2)) /\
      trace (set_accessToken (Some tok) (after_reads w2)) = trace w2 ++ storage_reads.
Proof.
  intros Hrun.
  destruct (initializeAuth_success _ _ _ Hrun)
    as (tok & e & Hne & Hacc & Htok & Hexp & Hlt & Hfirst).
  exists tok, e. split; [assumption|]. split; [assumption|].
  split; [assumption|]. split.
  - destruct Hfirst as [(Htr & Hold & Hsto & Hclk) | (Htr & Hty & Hclk & Hes & He)].
    + left. unfold stored_expiry in *. rewrite Hsto in Hexp.
      repeat split; try assumption. lia.
    + right. repeat split; assumption.
  - intros w2 Hsame Hbefore. split; [|apply trace_after_reads].
    apply initializeAuth_stored with e; try assumption.
    + by rewrite Hsame.
    + unfold stored_expiry in *. by rewrite Hsame.
Qed.

Lemma initializeAuth_twice_witness :
  exists tok e,
    accessToken (snd (initializeAuth Examples.answer Examples.world0)) = Some tok /\
    stored_expiry (snd (initializeAuth Examples.answer Examples.world0)) = Some e /\
    tok = "secret" /\ e = 3601005.
Proof.
  destruct (initializeAuth_twice Examples.answer Examples.no_answer Examples.world0
              (snd (initializeAuth Examples.answer Examples.world0)))
    as (tok & e & Hacc & _ & Hexp & _).
  - vm_compute. reflexivity.
  - exists tok, e. repeat split; try assumption.
    + vm_compute in Hacc. congruence.
    + vm_compute in Hexp. congruence.
Defined.


(** C9. [close] resets the token held in memory and nothing else, the two
    storage entries included: afterwards no token is held and the storage,
    the clock and the trace are as before.  So a token persisted with an
    expiry [e] is picked up again by the next [initializeAuth] made before
    [e]: it succeeds after the two storage reads and without the dialog,
    holds that token again and leaves the storage as it was. *)
Theorem close_keeps_storage a w tok e now :
  localStorage w !! token_key = Some tok ->
  tok <> EmptyString ->
  stored_expiry w = Some e ->
  now < e ->
  let w1 := snd (close w) in
  let w2 := snd (initializeAuth a (set_clock now w1)) in
  close w = (inr tt, w1) /\
  w1 = set_accessToken None w /\
  localStorage w1 = localStorage w /\
  initializeAuth a (set_clock now w1)
  = (inr tt, set_accessToken (Some tok) (after_reads (set_clock now w1))) /\
  events_since (set_clock now w1)
    (set_accessToken (Some tok) (after_reads (set_clock now w1))) = storage_reads /\
  accessToken w1 = None /\
  localStorage w1 !! token_key = Some tok /\
  stored_expiry w1 = Some e /\
  clock w1 = clock w /\
  trace w1 = trace w /\
  fst (initializeAuth a (set_clock now w1)) = inr tt /\
  accessToken w2 = Some tok /\
  localStorage w2 = localStorage w /\
  events_since (set_clock now w1) w2 = storage_reads /\
  ~ In EvPrompt (events_since (set_clock now w1) w2).
Proof.
  intros Htok Hne Hexp Hlt. unfold close, modify. cbn [snd]. cbn zeta.
  assert (Hrun : initializeAuth a (set_clock now (set_accessToken None w))
                 = (inr tt,
                    set_accessToken (Some tok)
                      (after_reads (set_clock now (set_accessToken None w)))))
    by (by apply initializeAuth_stored with e).
  assert (Hevents : events_since (set_clock now (set_accessToken None w))
                      (set_accessToken (Some tok)
                         (after_reads (set_clock now (set_accessToken None w))))
                    = storage_reads).
  { unfold events_since.
    cbn [set_accessToken set_clock trace]. rewrite trace_after_reads.
    cbn [set_accessToken set_clock trace]. by rewrite drop_app_length. }
  rewrite Hrun. cbn [fst snd]. rewrite Hevents.
  repeat (split; [first [reflexivity | assumption]|]).
  cbn. intuition discriminate.
Qed.

Lemma close_keeps_storage_witness :
  accessToken (snd (close Examples.stale_world)) = None /\
  accessToken
    (snd (initializeAuth Examples.no_answer
            (set_clock 3600999 (snd (close Examples.stale_world)))))
  = Some "tok".
Proof.
  destruct (close_keeps_storage Examples.no_answer Examples.stale_world
              "tok" 3601000 3600999)
    as (_ & _ & _ & _ & _ & Hnone & _ & _ & _ & _ & _ & Hagain & _).
  - reflexivity.
  - discriminate.
  - reflexivity.
  - reflexivity.
  - split; assumption.
Defined.

(** ** Facts about the transport *)

Section Transport.

Context {runtime : Runtime}.

Lemma events_since_app w w' events :
  trace w' = trace w ++ events -> events_since w w' = events.
Proof. unfold events_since. intros ->. by rewrite drop_app_length. Qed.

(** The normaliser on a text body, in terms of its data line. *)
Lemma normalize_text body :
  normalize (JStr body) =
  match find_data_line (split_lines body) with
  | EmptyString => inl NoDataLine
  | dataLine =>
      match parse_sse dataLine with
      | inr payload => inr payload
      | inl parseError => inl (SSEParseFailed parseError)
      end
  end.
Proof. unfold normalize. by destruct (find_data_line (split_lines body)). Qed.

(** The normaliser throws nothing the [catch] clause of [callTool] would
    take for a rejection of axios. *)
Lemma normalize_not_axios data f :
  normalize data = inl f -> forall e, f <> AxiosError e.
Proof.
  intros Hn e ->. destruct data as [|b|n|body|items|o].
  4: { rewrite normalize_text in Hn.
       destruct (find_data_line (split_lines body)); [discriminate|].
       by destruct (parse_sse _). }
  all: cbn in Hn; try discriminate.
  destruct (assoc "error" o) as [[]|]; try discriminate.
  by destruct (assoc "result" o).
Qed.

(** A failure of the client's own making is wrapped by the [catch]
    clause. *)
Lemma callTool_catch_local {A} tool f w :
  (forall e, f <> AxiosError e) ->
  @callTool_catch A tool f w = (inl (CallToolFailed tool f), w).
Proof.
  intros Hf. unfold callTool_catch, bind, gets, throw.
  destruct f; try reflexivity. by destruct (Hf e).
Qed.

Lemma callTool_catch_world {A} tool f w :
  snd (@callTool_catch A tool f w) = w.
Proof.
  unfold callTool_catch, bind, gets, throw. cbn.
  destruct f; try reflexivity.
  destruct (_ || _); [reflexivity|].
  destruct (ax_response e) as [[[? ?] ?]|]; [reflexivity|].
  by destruct (ax_request e).
Qed.

(** The exchange posts one request, with the token held at that moment,
    and touches nothing else. *)
Lemma exchange_world o tool args w :
  snd (exchange o tool args w) = emit (EvPost (authorization w) tool args) w.
Proof.
  unfold exchange, try_catch, bind, post, lift.
  destruct o as [data|e]; cbv beta iota zeta.
  - destruct (normalize data); [apply callTool_catch_world|reflexivity].
  - apply callTool_catch_world.
Qed.

(** A response that arrived is normalised; what the normaliser throws
    comes back wrapped by the [catch] clause. *)
Lemma exchange_resolved data tool args w :
  exchange (Resolved data) tool args w =
  (match normalize data with
   | inr payload => inr payload
   | inl f => inl (CallToolFailed tool f)
   end,
   emit (EvPost (authorization w) tool args) w).
Proof.
  unfold exchange, try_catch, bind, post, lift.
  destruct (normalize data) as [f|payload] eqn:Hn; [|reflexivity].
  apply callTool_catch_local. by apply normalize_not_axios with data.
Qed.

Lemma ensure_auth_held a w :
  truthy_string (accessToken w) = true -> ensure_auth a w = (inr tt, w).
Proof. unfold ensure_auth, bind, gets, ret. by intros ->. Qed.

Lemma ensure_auth_absent a w :
  truthy_string (accessToken w) = false -> ensure_auth a w = initializeAuth a w.
Proof. unfold ensure_auth, bind, gets. by intros ->. Qed.

Lemma callTool_after_auth a o tool args w w1 :
  ensure_auth a w = (inr tt, w1) ->
  callTool a o tool args w = exchange o tool args w1.
Proof. unfold callTool, bind. by intros ->. Qed.

Lemma callTool_auth_failed a o tool args w w1 f :
  ensure_auth a w = (inl f, w1) ->
  callTool a o tool args w = (inl f, w1).
Proof. unfold callTool, bind. by intros ->. Qed.

(** The events of the acquisition that opens a call made without a
    token: the two storage reads, then the dialog unless the stored
    token is still valid. *)
Lemma initializeAuth_events a w :
  exists rest,
    trace (snd (initializeAuth a w)) = trace w ++ storage_reads ++ rest /\
    (rest = [] \/ rest = [EvPrompt]) /\
    ((forall e, stored_expiry w = Some e -> e <= clock w) -> rest = [EvPrompt]).
Proof.
  destruct (initializeAuth_cases a w)
    as [(tok & e & _ & _ & He & Hlt & ->) | ->].
  - exists []. cbn [snd set_accessToken trace].
    rewrite trace_after_reads, app_nil_r.
    split; [reflexivity|]. split; [by left|].
    intros Hexp. specialize (Hexp e He). lia.
  - exists [EvPrompt]. rewrite acquire_by_prompt_trace, trace_after_reads.
    rewrite <- app_assoc. auto.
Qed.


End Transport.



(** ** Facts about the normaliser *)

Section Normaliser.

Context {runtime : Runtime}.

Lemma JSON_parse_nonempty text v : JSON_parse text = Some v -> text <> EmptyString.
Proof. intros Hparse ->. rewrite JSON_parse_empty in Hparse. discriminate. Qed.

Lemma truthy_nonempty s : s <> EmptyString -> truthy (Some (JStr s)) = true.
Proof. by destruct s. Qed.

Lemma split_lines_single line :
  no_newline line = true -> split_lines line = [line].
Proof.
  induction line as [|c line IH]; [reflexivity|]. intros Hl.
  cbn [no_newline] in Hl. apply andb_prop in Hl as [Hc Hl].
  cbn [split_lines]. destruct (Ascii.eqb c "010"); [discriminate|].
  by rewrite (IH Hl).
Qed.

Lemma split_lines_line line rest :
  no_newline line = true ->
  split_lines (line +:+ String "010" rest) = line :: split_lines rest.
Proof.
  induction line as [|c line IH]; [reflexivity|]. intros Hl.
  cbn [no_newline] in Hl. apply andb_prop in Hl as [Hc Hl].
  change (String c line +:+ String "010" rest)
    with (String c (line +:+ String "010" rest)).
  cbn [split_lines]. destruct (Ascii.eqb c "010"); [discriminate|].
  by rewrite (IH Hl).
Qed.

(** Splitting undoes joining when no line holds a line feed. *)
Lemma split_join_lines lines :
  lines <> [] ->
  Forall (fun line => no_newline line = true) lines ->
  split_lines (join_lines lines) = lines.
Proof.
  induction lines as [|line lines IH]; [done|]. intros _ Hall.
  apply Forall_cons in Hall as [Hline Hall].
  destruct lines as [|line' lines].
  - by apply split_lines_single.
  - change (join_lines (line :: line' :: lines))
      with (line +:+ String "010" (join_lines (line' :: lines))).
    rewrite split_lines_line by assumption. f_equal. by apply IH.
Qed.

(** The scan stops at the first line with the prefix. *)
Lemma find_data_line_first pre line post :
  Forall (fun l => startsWith "data: " l = false) pre ->
  startsWith "data: " line = true ->
  find_data_line (pre ++ line :: post) = substring_from 6 line.
Proof.
  intros Hpre Hline. induction Hpre as [|l pre Hl _ IH]; cbn.
  - by rewrite Hline.
  - by rewrite Hl.
Qed.

Lemma find_data_line_none lines :
  Forall (fun l => startsWith "data: " l = false) lines ->
  find_data_line lines = EmptyString.
Proof. induction 1 as [|l lines Hl _ IH]; cbn; [done|by rewrite Hl]. Qed.

Lemma log_results_records items :
  Forall not_null items -> log_results items = inr tt.
Proof.
  induction 1 as [|item items Hitem _ IH]; [reflexivity|].
  cbn. destruct item; try assumption. by destruct Hitem.
Qed.

Lemma log_results_null items :
  In JNull items ->
  log_results items = inl (TypeError "Cannot read properties of null").
Proof.
  induction items as [|item items IH]; [done|].
  intros [-> | Hin]; [reflexivity|].
  cbn [log_results]. destruct item; try reflexivity; by apply IH.
Qed.

(** What [extract_results] returns once [results] holds an array. *)
Lemma return_array items :
  Forall not_null items ->
  (if length_gt_zero (JArr items)
   then match JArr items with
        | JArr items' => let? _ := log_results items' in inr items'
        | _ => inl (TypeError "forEach is not a function")
        end
   else inr []) = inr items.
Proof.
  intros Hitems. destruct items as [|item items]; [reflexivity|].
  cbn [length_gt_zero length Nat.eqb negb]. by rewrite log_results_records.
Qed.

Lemma as_array_Some v rs :
  as_array v = Some rs -> v = Some (JArr rs).
Proof. destruct v as [[]|]; cbn; congruence. Qed.

Lemma as_array_None v :
  as_array v = None -> truthy v && isArray v = false.
Proof. destruct v as [[]|]; cbn; try discriminate; by rewrite ?andb_false_r. Qed.

(** What [result.data && result.data.results] evaluates to: as far as its
    truthiness goes, the [results] member of the [data] member. *)
Lemma nested_value data :
  exists nested,
    (if truthy data then get_prop data "results" else inr data) = inr nested /\
    truthy nested = truthy (member "results" data) /\
    (truthy nested = true -> nested = member "results" data).
Proof.
  destruct data as [[|[]|n|s|items|o]|];
    try (destruct (truthy (Some (JNum n))) eqn:Hdata);
    try (destruct (truthy (Some (JStr s))) eqn:Hdata);
    cbn [truthy get_prop member];
    (eexists; split; [reflexivity|]; rewrite ?Hdata;
     split; [reflexivity|]; intros Htruthy;
     first [discriminate Htruthy | reflexivity]).
Qed.

Lemma extract_results_precedence payload :
  (as_array (member "results" (Some payload)) = None ->
   nested_results_regular payload) ->
  Forall not_null (precedence payload) ->
  extract_results payload = inr (precedence payload).
Proof.
  unfold extract_results, pick_results, precedence, nested_results_regular.
  destruct payload as [|b|n|s|items|o]; try reflexivity.
  - by destruct b.
  - cbn. by destruct (Qeq_bool n 0).
  - cbn. by destruct (s =? "")%string.
  - cbn [truthy typeof_object andb get_prop member as_array undefined isArray].
    intros _ Hitems. by apply return_array.
  - cbn [truthy typeof_object andb get_prop member].
    destruct (as_array (assoc "results" o)) as [rs|] eqn:Htop.
    + intros _ Hrs. rewrite (as_array_Some _ _ Htop).
      cbn [truthy isArray andb default from_option id]. by apply return_array.
    + intros Hreg Hsel. specialize (Hreg eq_refl).
      rewrite (as_array_None _ Htop).
      destruct (nested_value (assoc "data" o)) as (nested & -> & Htruthy & Hsame).
      destruct (truthy nested) eqn:Hnested.
      * specialize (Hsame eq_refl). subst nested.
        rewrite Hnested in Hreg. specialize (Hreg eq_refl).
        destruct (member "results" (assoc "data" o)) as [[| | | |rs|]|];
          try discriminate.
        cbn [as_array default from_option id] in *. by apply return_array.
      * assert (Hnone : as_array (member "results" (assoc "data" o)) = None).
        { destruct (member "results" (assoc "data" o)) as [[]|];
            try reflexivity. discriminate. }
        rewrite Hnone. cbn [isArray].
        by destruct (truthy (assoc "content" o)).
Qed.

Lemma extract_results_non_object payload :
  payload = JNull \/ typeof_object payload = false ->
  extract_results payload = inr [].
Proof.
  intros [-> | Htype]; [reflexivity|].
  unfold extract_results, pick_results. rewrite Htype.
  by rewrite andb_false_r.
Qed.

Lemma search_after_callTool a o text type w w1 payload :
  callTool a o "search" (search_arguments text type) w = (inr payload, w1) ->
  search a o text type w = (extract_results payload, w1).
Proof.
  intros Hcall. unfold search, try_catch, bind, lift, throw. rewrite Hcall.
  by destruct (extract_results payload).
Qed.

(** The normaliser on a JSON-RPC error envelope, structured or on a data
    line. *)
Lemma normalize_error_object env err :
  assoc "error" env = Some (JObj err) ->
  normalize (JObj env)
  = inl (JsonRpcFailure (assoc "message" err) (assoc "code" err)).
Proof.
  intros Herr. unfold normalize.
  cbn [typeof_object andb negb has_prop get_prop]. by rewrite Herr.
Qed.

Lemma parse_sse_error dataLine env err :
  JSON_parse dataLine = Some (JObj env) ->
  assoc "error" env = Some (JObj err) ->
  parse_sse dataLine
  = inl (JsonRpcFailure (assoc "message" err) (assoc "code" err)).
Proof.
  intros Hparse Herr. unfold parse_sse, parse_value. rewrite Hparse.
  cbn [get_prop]. by rewrite Herr.
Qed.

Lemma normalize_stream body c dataLine :
  find_data_line (split_lines body) = String c dataLine ->
  normalize (JStr body)
  = match parse_sse (String c dataLine) with
    | inr payload => inr payload
    | inl parseError => inl (SSEParseFailed parseError)
    end.
Proof. intros Hline. by rewrite normalize_text, Hline. Qed.

(** C2, as the code has it.  The client has one kind of failure, an
    [Error] with a message.  For a structured response whose [error] member
    is an object, [callTool] fails with the error of its own [catch] clause
    (Failed to call tool ...), whose text embeds the JSON-RPC error with the
    remote message and code; when the envelope arrives on a data line, the
    JSON-RPC error is first wrapped as a failure to parse the SSE response
    and then by the [catch] clause.  In both cases the request has been
    posted once. *)
Theorem callTool_error_envelope a tool args w w1 env err :
  ensure_auth a w = (inr tt, w1) ->
  assoc "error" env = Some (JObj err) ->
  callTool a (Resolved (JObj env)) tool args w
  = (inl (CallToolFailed tool
            (JsonRpcFailure (assoc "message" err) (assoc "code" err))),
     emit (EvPost (authorization w1) tool args) w1)
  /\
  forall body dataLine,
    find_data_line (split_lines body) = dataLine ->
    JSON_parse dataLine = Some (JObj env) ->
    callTool a (Resolved (JStr body)) tool args w
    = (inl (CallToolFailed tool
              (SSEParseFailed
                 (JsonRpcFailure (assoc "message" err) (assoc "code" err)))),
       emit (EvPost (authorization w1) tool args) w1).
Proof.
  intros Hauth Herr. split.
  - rewrite (callTool_after_auth _ _ _ _ _ _ Hauth), exchange_resolved.
    by rewrite (normalize_error_object _ _ Herr).
  - intros body dataLine Hline Hparse.
    rewrite (callTool_after_auth _ _ _ _ _ _ Hauth), exchange_resolved.
    pose proof (JSON_parse_nonempty _ _ Hparse) as Hne.
    destruct dataLine as [|c dataLine]; [done|].
    rewrite (normalize_stream _ _ _ Hline).
    by rewrite (parse_sse_error _ _ _ Hparse Herr).
Qed.

(** C5, as the code has it.  A text body none of whose lines starts with
    the data prefix makes [callTool] fail with the error of its own [catch]
    clause, whose text embeds the message that no data line was found; the
    request has been posted once.  The scan stops at the first line that has
    the prefix: what the normaliser makes of a body depends on that line
    alone. *)
Theorem callTool_no_data_line a tool args w w1 :
  ensure_auth a w = (inr tt, w1) ->
  (forall body,
     Forall (fun line => startsWith "data: " line = false) (split_lines body) ->
     callTool a (Resolved (JStr body)) tool args w
     = (inl (CallToolFailed tool NoDataLine),
        emit (EvPost (authorization w1) tool args) w1))
  /\
  (forall pre line post,
     Forall (fun l => startsWith "data: " l = false) pre ->
     startsWith "data: " line = true ->
     Forall (fun l => no_newline l = true) (pre ++ line :: post) ->
     find_data_line (split_lines (join_lines (pre ++ line :: post)))
     = substring_from 6 line /\
     callTool a (Resolved (JStr (join_lines (pre ++ line :: post)))) tool args w
     = callTool a (Resolved (JStr line)) tool args w).
Proof.
  intros Hauth. split.
  - intros body Hnone.
    rewrite (callTool_after_auth _ _ _ _ _ _ Hauth), exchange_resolved.
    by rewrite normalize_text, (find_data_line_none _ Hnone).
  - intros pre line post Hpre Hline Hlines.
    assert (Hsplit : split_lines (join_lines (pre ++ line :: post))
                     = pre ++ line :: post).
    { apply split_join_lines; [|assumption]. by destruct pre. }
    assert (Hone : split_lines line = [line]).
    { apply split_lines_single.
      apply Forall_app in Hlines as [_ Hrest].
      by apply Forall_cons in Hrest as [? _]. }
    rewrite Hsplit, (find_data_line_first _ _ _ Hpre Hline).
    split; [reflexivity|].
    rewrite !(callTool_after_auth _ _ _ _ _ _ Hauth), !exchange_resolved.
    rewrite !normalize_text, Hsplit, Hone.
    rewrite (find_data_line_first _ _ _ Hpre Hline).
    cbn [find_data_line]. by rewrite Hline.
Qed.

(** C3, as the code has it.  Once [callTool] has produced a payload,
    [search] returns: a top-level [results] array; else a nested
    [data.results] array; else the payload itself if it is an array; else
    the payload alone if it has a truthy [content] member; else nothing.
    This is stated for payloads whose nested [data.results], when the first
    rule does not apply and it is truthy, is an array, and for selected
    sequences without a [null] element.  In particular, a structured response
    with no [error] member whose [result] has a [results] array of records
    makes [search] return exactly these records, in their order. *)
Theorem search_precedence a text type w w1 :
  (forall o payload,
     callTool a o "search" (search_arguments text type) w = (inr payload, w1) ->
     (as_array (member "results" (Some payload)) = None ->
      nested_results_regular payload) ->
     Forall not_null (precedence payload) ->
     search a o text type w = (inr (precedence payload), w1))
  /\
  (forall env payload rs,
     ensure_auth a w = (inr tt, w1) ->
     assoc "error" env = None ->
     assoc "result" env = Some payload ->
     member "results" (Some payload) = Some (JArr rs) ->
     Forall not_null rs ->
     search a (Resolved (JObj env)) text type w
     = (inr rs,
        emit (EvPost (authorization w1) "search" (search_arguments text type)) w1)).
Proof.
  split.
  - intros o payload Hcall Hreg Hsel.
    rewrite (search_after_callTool _ _ _ _ _ _ _ Hcall).
    by rewrite extract_results_precedence.
  - intros env payload rs Hauth Herr Hres Hrs Hrecords.
    assert (Hcall : callTool a (Resolved (JObj env)) "search"
                      (search_arguments text type) w
                    = (inr payload,
                       emit (EvPost (authorization w1) "search"
                               (search_arguments text type)) w1)).
    { rewrite (callTool_after_auth _ _ _ _ _ _ Hauth), exchange_resolved.
      unfold normalize. cbn [typeof_object andb negb has_prop get_prop].
      by rewrite Herr, Hres. }
    rewrite (search_after_callTool _ _ _ _ _ _ _ Hcall).
    rewrite extract_results_precedence; unfold precedence; rewrite Hrs;
      cbn [as_array]; done.
Qed.


(** C10.  A payload that is [null] or no object at all (a boolean, a
    number, a string) yields the empty sequence: [search] does not fail on
    it. *)
Theorem search_non_object a o text type w w1 payload :
  payload = JNull \/ typeof_object payload = false ->
  extract_results payload = inr [] /\
  (callTool a o "search" (search_arguments text type) w = (inr payload, w1) ->
   search a o text type w = (inr [], w1)).
Proof.
  intros Hshape. split; [by apply extract_results_non_object|].
  intros Hcall. rewrite (search_after_callTool _ _ _ _ _ _ _ Hcall).
  by rewrite extract_results_non_object.
Qed.

(** C6.  [testConnection] always returns a boolean: [true] when the trial
    search succeeds, whatever it found, and [false] exactly when the trial
    search fails and the GET against the root is rejected as well. *)
Theorem testConnection_total a o ping w :
  exists b w',
    testConnection a o ping w = (inr b, w') /\
    ((exists rs w1, search a o "test connection" "hybrid" w = (inr rs, w1)) ->
     b = true) /\
    (b = false <->
     (exists f w1, search a o "test connection" "hybrid" w = (inl f, w1)) /\
     (exists e, ping = Rejected e)).
Proof.
  unfold testConnection, try_catch, bind, ret, get_root.
  destruct (search a o "test connection" "hybrid" w) as [[f|rs] w1] eqn:Hsearch.
  - destruct ping as [data|e]; eexists _, _; (split; [reflexivity|]); split.
    + by intros (rs & w2 & [=]).
    + split; [discriminate|]. by intros [_ [e [=]]].
    + by intros (rs & w2 & [=]).
    + split; [|reflexivity]. eauto.
  - cbn [truthy]. eexists _, _. split; [reflexivity|]. split; [reflexivity|].
    split; [discriminate|]. by intros [(f & w2 & [=]) _].
Qed.

End Normaliser.

(** ** The theorems at work on the example runtime *)

Lemma callTool_error_envelope_witness :
  fst (callTool Examples.no_answer (Resolved Examples.error_envelope)
         "search" JNull Examples.stale_world)
  = inl (CallToolFailed "search"
           (JsonRpcFailure (Some (JStr "bad")) (Some (JNum 7))))
  /\
  fst (callTool Examples.no_answer (Resolved (JStr Examples.error_stream))
         "search" JNull Examples.stale_world)
  = inl (CallToolFailed "search"
           (SSEParseFailed (JsonRpcFailure (Some (JStr "bad")) (Some (JNum 7))))).
Proof.
  destruct (callTool_error_envelope Examples.no_answer "search" JNull
              Examples.stale_world Examples.stale_world
              [("error", JObj [("code", JNum 7); ("message", JStr "bad")])]
              [("code", JNum 7); ("message", JStr "bad")]
              eq_refl eq_refl) as [Hplain Hstream].
  split.
  - unfold Examples.error_envelope. rewrite Hplain. reflexivity.
  - rewrite (Hstream Examples.error_stream _ eq_refl); [reflexivity|].
    vm_compute. reflexivity.
Defined.

(** C2 as the specification words it, refuted: on the error envelope with
    code 7 and message bad, structured or on a data line, the failure that
    reaches the caller is not the JSON-RPC error but the plain [Error] of
    [callTool]'s [catch] clause, in the second case around a failure to
    parse the SSE response; the remote code and message are part of its
    text only. *)
Lemma callTool_error_kind_counterexample :
  let plain :=
    fst (callTool Examples.no_answer (Resolved Examples.error_envelope)
           "search" JNull Examples.stale_world) in
  let stream :=
    fst (callTool Examples.no_answer (Resolved (JStr Examples.error_stream))
           "search" JNull Examples.stale_world) in
  (exists f,
     plain = inl f /\ error_class f = "Error" /\
     message f
     = "Failed to call tool search: Error: JSON-RPC Error: bad (Code: 7)") /\
  plain <> inl (JsonRpcFailure (Some (JStr "bad")) (Some (JNum 7))) /\
  (exists f,
     stream = inl f /\ error_class f = "Error" /\
     message f
     = "Failed to call tool search: Error: Failed to parse SSE response: Error: JSON-RPC Error: bad (Code: 7)") /\
  stream <> inl (JsonRpcFailure (Some (JStr "bad")) (Some (JNum 7))).
Proof.
  cbv zeta. repeat split;
    try (eexists; repeat split; vm_compute; reflexivity);
    vm_compute; discriminate.
Qed.

Lemma callTool_no_data_line_witness :
  callTool Examples.no_answer (Resolved (JStr "event: ping")) "search" JNull
    Examples.stale_world
  = (inl (CallToolFailed "search" NoDataLine),
     emit (EvPost (Some "tok") "search" JNull) Examples.stale_world)
  /\
  find_data_line
    (split_lines (join_lines ["event: message"; "data: 1"; "data: 2"]))
  = "1".
Proof.
  destruct (callTool_no_data_line Examples.no_answer "search" JNull
              Examples.stale_world Examples.stale_world eq_refl)
    as [Hnone Hfirst].
  split.
  - apply Hnone. repeat constructor.
  - apply (Hfirst ["event: message"] "data: 1" ["data: 2"]).
    + repeat constructor.
    + reflexivity.
    + repeat constructor.
Defined.

(** C5 as the specification words it, refuted: on a text body without a
    data line the failure that reaches the caller is not the one that says
    so but the plain [Error] of [callTool]'s [catch] clause around it. *)
Lemma callTool_no_data_line_counterexample :
  let outcome :=
    fst (callTool Examples.no_answer (Resolved (JStr "hello")) "search" JNull
           Examples.stale_world) in
  (exists f,
     outcome = inl f /\ error_class f = "Error" /\
     message f
     = "Failed to call tool search: Error: No data line found in SSE response") /\
  outcome <> inl NoDataLine.
Proof.
  cbv zeta. split.
  - eexists. repeat split; vm_compute; reflexivity.
  - vm_compute. discriminate.
Qed.

Lemma search_precedence_witness :
  search Examples.no_answer (Resolved Examples.plain_envelope) "x" "hybrid"
    Examples.stale_world
  = (inr [Examples.hello; Examples.world_record],
     emit (EvPost (Some "tok") "search" (search_arguments "x" "hybrid"))
       Examples.stale_world).
Proof.
  apply (proj2 (search_precedence Examples.no_answer "x" "hybrid"
                  Examples.stale_world Examples.stale_world)
           [("jsonrpc", JStr "2.0"); ("id", JNum 1);
            ("result", JObj [("results", JArr [Examples.hello; Examples.world_record])])]
           (JObj [("results", JArr [Examples.hello; Examples.world_record])])).
  - reflexivity.
  - reflexivity.
  - reflexivity.
  - reflexivity.
  - repeat constructor; discriminate.
Defined.

(** C3 as the specification words it, refuted: a payload whose [content]
    field is the empty string has a [content] field, so the specification's
    precedence selects the payload itself, but [search] returns nothing. *)
Lemma search_precedence_counterexample :
  spec_precedence (JObj [("content", JStr "")]) = [JObj [("content", JStr "")]] /\
  extract_results (JObj [("content", JStr "")]) = inr [] /\
  fst (search Examples.no_answer
         (Resolved (JObj [("result", JObj [("content", JStr "")])]))
         "x" "hybrid" Examples.stale_world)
  = inr [] /\
  extract_results (JObj [("content", JStr "")])
  <> inr (spec_precedence (JObj [("content", JStr "")])).
Proof. repeat split; vm_compute; congruence. Qed.



Lemma search_non_object_witness :
  extract_results (JNum 5) = inr [] /\
  search Examples.no_answer (Resolved (JObj [("result", JStr "ok")])) "x" "hybrid"
    Examples.stale_world
  = (inr [],
     emit (EvPost (Some "tok") "search" (search_arguments "x" "hybrid"))
       Examples.stale_world).
Proof.
  split.
  - apply (search_non_object Examples.no_answer (Resolved JNull) "x" "hybrid"
             Examples.stale_world Examples.stale_world (JNum 5)).
    right. reflexivity.
  - apply (search_non_object Examples.no_answer
             (Resolved (JObj [("result", JStr "ok")])) "x" "hybrid"
             Examples.stale_world
             (emit (EvPost (Some "tok") "search" (search_arguments "x" "hybrid"))
                Examples.stale_world)
             (JStr "ok")).
    + right. reflexivity.
    + reflexivity.
Defined.

Lemma testConnection_total_witness :
  exists b w',
    testConnection Examples.no_answer (Rejected Examples.refused)
      (Rejected Examples.refused) Examples.world0 = (inr b, w').
Proof.
  destruct (testConnection_total Examples.no_answer (Rejected Examples.refused)
              (Rejected Examples.refused) Examples.world0)
    as (b & w' & Hrun & _).
  exists b, w'. exact Hrun.
Defined.

(** * Further properties of the client *)

(** ** The token manager *)

Lemma trimEnd_idempotent s : trimEnd (trimEnd s) = trimEnd s.
Proof.
  induction s as [|c s IH]; [reflexivity|]. cbn [trimEnd].
  destruct (trimEnd s) as [|c' t] eqn:Hend.
  - destruct (is_white_space c) eqn:Hc; [reflexivity|].
    cbn [trimEnd]. by rewrite Hc.
  - cbn [trimEnd] in *. by rewrite IH.
Qed.

Lemma trimStart_head s c r :
  trimStart s = String c r -> is_white_space c = false.
Proof.
  induction s as [|c0 s IH]; [discriminate|]. cbn [trimStart].
  destruct (is_white_space c0) eqn:Hc0; [assumption|].
  by intros [= <- _].
Qed.

Lemma trimEnd_head c r :
  is_white_space c = false -> exists r', trimEnd (String c r) = String c r'.
Proof.
  intros Hc. cbn [trimEnd]. destruct (trimEnd r); [rewrite Hc|]; eauto.
Qed.

(** Nothing is left to trim on a trimmed string. *)
Lemma trim_idempotent s : trim (trim s) = trim s.
Proof.
  unfold trim. destruct (trimStart s) as [|c r] eqn:Hstart; [reflexivity|].
  destruct (trimEnd_head c r (trimStart_head _ _ _ Hstart)) as [r' Hend].
  rewrite Hend. cbn [trimStart].
  rewrite (trimStart_head _ _ _ Hstart), <- Hend. apply trimEnd_idempotent.
Qed.

Lemma blank_dialog a w0 :
  blank a ->
  acquire_by_prompt a w0
  = (inl (AuthInitFailed TokenRequired),
     set_clock (clock w0 + took a) (emit EvPrompt w0)).
Proof.
  unfold blank, acquire_by_prompt. destruct (typed a) as [t|]; [|reflexivity].
  by intros ->.
Qed.

Lemma initializeAuth_expired a w :
  (forall e, stored_expiry w = Some e -> e <= clock w) ->
  initializeAuth a w = acquire_by_prompt a (after_reads w).
Proof.
  intros Hexp.
  destruct (initializeAuth_cases a w)
    as [(tok & e & _ & _ & He & Hlt & _) | Heq]; [|assumption].
  specialize (Hexp e He). lia.
Qed.



(** X2. A stored token whose expiry is missing, unreadable or not ahead of
    the clock is replaced when the browser accepts the two writes: the
    dialog is opened, and a text that is not blank is trimmed, held in
    memory and persisted in place of the old token, with an expiry of
    3600000 ms after the moment the dialog closed.  When the browser
    refuses the first write, [initializeAuth] fails, the old token stays in
    the storage and the new one is held in memory all the same. *)
Theorem initializeAuth_replaces_expired a w t :
  (forall e, stored_expiry w = Some e -> e <= clock w) ->
  typed a = Some t ->
  trim t <> EmptyString ->
  (write_error w (localStorage w) token_key (trim t) = None ->
   write_error w (<[token_key := trim t]> (localStorage w)) expiry_key
     (Number_toString (clock w + took a + 3600000)) = None ->
   exists w1,
     initializeAuth a w = (inr tt, w1) /\
     accessToken w1 = Some (trim t) /\
     localStorage w1 !! token_key = Some (trim t) /\
     stored_expiry w1 = Some (clock w + took a + 3600000) /\
     clock w1 = clock w + took a /\
     trace w1 = trace w ++ storage_reads ++ [EvPrompt]) /\
  (forall text,
     write_error w (localStorage w) token_key (trim t) = Some text ->
     exists w1,
       initializeAuth a w = (inl (AuthInitFailed (QuotaExceeded text)), w1) /\
       accessToken w1 = Some (trim t) /\
       localStorage w1 = localStorage w /\
       trace w1 = trace w ++ storage_reads ++ [EvPrompt]).
Proof.
  intros Hexp Hty Hne. rewrite (initializeAuth_expired a w Hexp).
  unfold acquire_by_prompt. rewrite Hty.
  change (localStorage (after_reads w)) with (localStorage w).
  change (write_error (after_reads w)) with (write_error w).
  change (clock (set_clock (clock (after_reads w) + took a)
                   (emit EvPrompt (after_reads w))))
    with (clock w + took a).
  destruct (trim t) as [|c r] eqn:Htrim; [done|].
  split.
  - intros -> ->.
    eexists. split; [reflexivity|]. unfold stored_expiry.
    cbn [accessToken localStorage clock trace set_localStorage set_accessToken
         set_clock emit].
    rewrite lookup_insert_eq, parseInt_Number_toString.
    rewrite lookup_insert_ne, lookup_insert_eq by (symmetry; apply keys_differ).
    rewrite trace_after_reads, <- app_assoc. by repeat split.
  - intros text ->.
    eexists. split; [reflexivity|].
    cbn [accessToken localStorage clock trace set_localStorage set_accessToken
         set_clock emit].
    rewrite trace_after_reads, <- app_assoc. by repeat split.
Qed.

Lemma initializeAuth_replaces_expired_witness :
  exists w1,
    initializeAuth Examples.answer Examples.stale_world = (inr tt, w1) /\
    accessToken w1 = Some "secret" /\
    localStorage w1 !! token_key = Some "secret".
Proof.
  destruct (initializeAuth_replaces_expired Examples.answer Examples.stale_world
              "  secret ") as [Haccepted _].
  - intros e [= <-]. vm_compute. discriminate.
  - reflexivity.
  - discriminate.
  - destruct Haccepted as (w1 & Hrun & Hacc & Hsto & _).
    + reflexivity.
    + reflexivity.
    + exists w1. repeat split; assumption.
Defined.

(** X3. The token a dialog has produced carries no white space around it:
    trimming it again changes nothing. *)
Theorem prompted_token_trimmed a w w1 :
  initializeAuth a w = (inr tt, w1) ->
  In EvPrompt (events_since w w1) ->
  exists tok,
    accessToken w1 = Some tok /\
    localStorage w1 !! token_key = Some tok /\
    tok <> EmptyString /\ trim tok = tok.
Proof.
  intros Hrun Hprompt.
  destruct (initializeAuth_success _ _ _ Hrun)
    as (tok & e & Hne & Hacc & Htok & _ & _ & Hfirst).
  exists tok. repeat split; try assumption.
  destruct Hfirst as [(Htr & _) | (_ & (t & _ & ->) & _)].
  - unfold events_since in Hprompt. rewrite Htr, drop_app_length in Hprompt.
    cbn in Hprompt. intuition discriminate.
  - apply trim_idempotent.
Qed.

Lemma prompted_token_trimmed_witness :
  exists tok,
    accessToken (snd (initializeAuth Examples.answer Examples.world0)) = Some tok /\
    trim tok = tok.
Proof.
  destruct (prompted_token_trimmed Examples.answer Examples.world0
              (snd (initializeAuth Examples.answer Examples.world0)))
    as (tok & Hacc & _ & _ & Htrim).
  - reflexivity.
  - vm_compute. tauto.
  - exists tok. split; assumption.
Defined.

(** X4. A token acquired through the dialog lives for exactly one hour: on
    the storage it has left behind, a later [initializeAuth] opens the
    dialog again if and only if the clock has reached the moment the first
    dialog closed plus 3600000 ms. *)
Theorem token_lifetime a1 a2 w w1 w2 :
  initializeAuth a1 w = (inr tt, w1) ->
  In EvPrompt (events_since w w1) ->
  localStorage w2 = localStorage w1 ->
  (In EvPrompt (events_since w2 (snd (initializeAuth a2 w2)))
   <-> clock w1 + 3600000 <= clock w2).
Proof.
  intros Hrun Hprompt Hsame.
  destruct (initializeAuth_success _ _ _ Hrun)
    as (tok & e & Hne & Hacc & Htok & Hexp & _ & Hfirst).
  destruct Hfirst as [(Htr & _) | (_ & _ & _ & _ & ->)].
  { unfold events_since in Hprompt. rewrite Htr, drop_app_length in Hprompt.
    cbn in Hprompt. intuition discriminate. }
  assert (Hexp2 : stored_expiry w2 = Some (clock w1 + 3600000))
    by (unfold stored_expiry in *; by rewrite Hsame).
  destruct (Z.le_gt_cases (clock w1 + 3600000) (clock w2)) as [Hpast | Hahead].
  - split; [done|]. intros _.
    rewrite (initializeAuth_expired a2 w2)
      by (intros e'; rewrite Hexp2; intros [= <-]; assumption).
    unfold events_since.
    rewrite acquire_by_prompt_trace, trace_after_reads, <- app_assoc.
    rewrite drop_app_length. cbn. tauto.
  - split; [|lia]. intros Hin.
    rewrite (initializeAuth_stored a2 w2 tok (clock w1 + 3600000)) in Hin;
      [|by rewrite Hsame|assumption|exact Hexp2|lia].
    unfold events_since in Hin. cbn [snd set_accessToken trace] in Hin.
    rewrite trace_after_reads, drop_app_length in Hin.
    cbn in Hin. intuition discriminate.
Qed.

Lemma token_lifetime_witness :
  In EvPrompt
    (events_since
       (set_clock 3601005 (snd (initializeAuth Examples.answer Examples.world0)))
       (snd (initializeAuth Examples.no_answer
               (set_clock 3601005
                  (snd (initializeAuth Examples.answer Examples.world0)))))).
Proof.
  apply (token_lifetime Examples.answer Examples.no_answer Examples.world0
           (snd (initializeAuth Examples.answer Examples.world0))
           (set_clock 3601005 (snd (initializeAuth Examples.answer Examples.world0)))).
  - reflexivity.
  - vm_compute. tauto.
  - reflexivity.
  - vm_compute. discriminate.
Defined.

(** ** The transport *)

Section TransportFacts.

Context {runtime : Runtime}.

Lemma ensure_auth_token a w w1 :
  ensure_auth a w = (inr tt, w1) ->
  exists tok, accessToken w1 = Some tok /\ tok <> EmptyString /\
              baseUrl w1 = baseUrl w.
Proof.
  destruct (truthy_string (accessToken w)) eqn:Hheld.
  - rewrite (ensure_auth_held a w Hheld). intros [= <-].
    apply truthy_string_inv in Hheld as (tok & Htok & Hne). eauto.
  - rewrite (ensure_auth_absent a w Hheld). intros Hrun.
    pose proof (initializeAuth_baseUrl a w) as Hurl. rewrite Hrun in Hurl.
    destruct (initializeAuth_success _ _ _ Hrun) as (tok & e & Hne & Hacc & _).
    eauto.
Qed.

Lemma ensure_auth_failed a w f w1 :
  ensure_auth a w = (inl f, w1) ->
  truthy_string (accessToken w) = false /\
  initializeAuth a w = (inl f, w1).
Proof.
  destruct (truthy_string (accessToken w)) eqn:Hheld.
  - by rewrite (ensure_auth_held a w Hheld).
  - by rewrite (ensure_auth_absent a w Hheld).
Qed.

Lemma authorization_held w tok :
  accessToken w = Some tok -> tok <> EmptyString -> authorization w = Some tok.
Proof.
  intros Hacc Hne. unfold authorization.
  by rewrite Hacc, (truthy_string_Some _ Hne).
Qed.

(** What the [catch] clause makes of a failure. *)
Lemma callTool_catch_shapes {A} tool f w g w' :
  @callTool_catch A tool f w = (inl g, w') ->
  g = NetworkFailure (baseUrl w) \/
  (exists e status statusText data,
     f = AxiosError e /\ ax_response e = Some (status, statusText, data) /\
     g = ServerFailure status statusText data) \/
  g = NoResponse (baseUrl w) \/
  g = CallToolFailed tool f.
Proof.
  unfold callTool_catch, bind, gets, throw.
  destruct f; try (intros [= <- _]; tauto).
  destruct (_ || _); [intros [= <- _]; tauto|].
  destruct (ax_response e) as [[[status statusText] data]|] eqn:Hresp.
  - intros [= <- _]. right. left. by exists e, status, statusText, data.
  - destruct (ax_request e); intros [= <- _]; tauto.
Qed.

Lemma exchange_failure_shapes o tool args w g w' :
  exchange o tool args w = (inl g, w') ->
  g = NetworkFailure (baseUrl w) \/
  (exists e status statusText data,
     o = Rejected e /\ ax_response e = Some (status, statusText, data) /\
     g = ServerFailure status statusText data) \/
  g = NoResponse (baseUrl w) \/
  (exists cause, g = CallToolFailed tool cause).
Proof.
  destruct o as [data|e].
  - rewrite exchange_resolved. destruct (normalize data); [|discriminate].
    intros [= <- _]. do 3 right. eauto.
  - unfold exchange, try_catch, bind, post, lift. cbv beta iota zeta.
    intros Hcatch. apply callTool_catch_shapes in Hcatch.
    cbn [baseUrl emit] in Hcatch.
    destruct Hcatch as [-> | [(e' & st & txt & d & [= <-] & Hresp & ->) | [-> | ->]]];
      eauto 10.
Qed.

(** X5. What [clearAuth] promises the user: on the world it leaves behind
    the next call reads the storage and opens the dialog before anything is
    sent, whatever the clock says.  If the dialog gives nothing to work
    with, the call fails with the token-required error and no request is
    sent at all.  If it gives a text that is not blank, the one request
    that follows carries the trimmed text as its token, unless the browser
    refuses to store it: then the call fails with the browser's error,
    wrapped, and no request is sent either. *)
Theorem clearAuth_forces_prompt a o tool args w :
  let w0 := snd (clearAuth w) in
  exists rest,
    events_since w0 (snd (callTool a o tool args w0))
    = storage_reads ++ EvPrompt :: rest /\
    (blank a ->
     rest = [] /\
     fst (callTool a o tool args w0) = inl (AuthInitFailed TokenRequired)) /\
    (forall t,
       typed a = Some t -> trim t <> EmptyString ->
       match refused_write w0 (trim t)
               (Number_toString (clock w0 + took a + 3600000)) with
       | None => rest = [EvPost (Some (trim t)) tool args]
       | Some text =>
           rest = [] /\
           fst (callTool a o tool args w0)
           = inl (AuthInitFailed (QuotaExceeded text))
       end).
Proof.
  cbv zeta. set (w0 := snd (clearAuth w)).
  assert (Hnone : localStorage w0 !! token_key = None).
  { unfold w0, clearAuth, bind, removeItem, modify. cbn.
    rewrite lookup_delete_ne by (symmetry; apply keys_differ).
    apply lookup_delete_eq. }
  assert (Habsent : truthy_string (accessToken w0) = false) by reflexivity.
  assert (Hinit : initializeAuth a w0 = acquire_by_prompt a (after_reads w0)).
  { destruct (initializeAuth_cases a w0)
      as [(tok & e & Htok & _) | Heq]; [congruence|assumption]. }
  pose proof (ensure_auth_absent a w0 Habsent) as Hauth. rewrite Hinit in Hauth.
  pose proof (acquire_by_prompt_trace a (after_reads w0)) as Htr.
  rewrite trace_after_reads, <- app_assoc in Htr.
  pose proof (acquire_by_prompt_typed a (after_reads w0)) as Htyped.
  change (refused_write (after_reads w0)) with (refused_write w0) in Htyped.
  change (clock (after_reads w0)) with (clock w0) in Htyped.
  destruct (acquire_by_prompt a (after_reads w0)) as [[f|[]] w1] eqn:Hrun;
    cbn [fst snd] in *.
  - rewrite (callTool_auth_failed a o tool args w0 w1 f Hauth). cbn [fst snd].
    exists []. rewrite (events_since_app _ _ _ Htr).
    split; [reflexivity|]. split.
    + intros Hblank. rewrite (blank_dialog _ _ Hblank) in Hrun.
      by injection Hrun as <- _.
    + intros t Hty Hne. specialize (Htyped t Hty Hne).
      destruct (refused_write w0 _ _) as [text|]; [|discriminate].
      by injection Htyped as ->.
  - rewrite (callTool_after_auth a o tool args w0 w1 Hauth).
    destruct (acquire_by_prompt_success _ _ _ Hrun)
      as (t & tok & Hty & -> & Hne & Hacc & _).
    exists [EvPost (Some (trim t)) tool args].
    assert (Hall : trace (snd (exchange o tool args w1))
                   = trace w0 ++ storage_reads
                       ++ EvPrompt :: [EvPost (Some (trim t)) tool args]).
    { rewrite exchange_world. cbn [emit trace].
      rewrite (authorization_held _ _ Hacc Hne), Htr.
      by rewrite <- !app_assoc. }
    rewrite (events_since_app _ _ _ Hall).
    split; [reflexivity|]. split.
    + intros Hblank. rewrite (blank_dialog _ _ Hblank) in Hrun. discriminate.
    + intros t' Hty' Hne'. specialize (Htyped t' Hty' Hne').
      destruct (refused_write w0 _ _) as [text|]; [discriminate|].
      congruence.
Qed.

(** X6. The transport never touches the credential.  A call made while a
    token is held leaves the token, the storage and the clock as they were,
    however the exchange ends, a 401 included; so the next call posts the
    same token again, without storage read or dialog. *)
Theorem callTool_keeps_credential a o tool args w :
  truthy_string (accessToken w) = true ->
  let w1 := snd (callTool a o tool args w) in
  accessToken w1 = accessToken w /\
  localStorage w1 = localStorage w /\
  clock w1 = clock w /\
  forall a' o' tool' args',
    events_since w1 (snd (callTool a' o' tool' args' w1))
    = [EvPost (accessToken w) tool' args'].
Proof.
  intros Hheld. cbv zeta.
  rewrite (callTool_after_auth a o tool args w w (ensure_auth_held a w Hheld)).
  rewrite exchange_world. cbn [accessToken localStorage clock emit].
  repeat split. intros a' o' tool' args'.
  set (w1 := emit _ w).
  assert (Hheld1 : truthy_string (accessToken w1) = true) by exact Hheld.
  rewrite (callTool_after_auth a' o' tool' args' w1 w1
             (ensure_auth_held a' w1 Hheld1)).
  apply events_since_app. rewrite exchange_world.
  unfold authorization. rewrite Hheld1. reflexivity.
Qed.


Lemma callTool_failure_shapes_aux a o tool args w f w' :
  callTool a o tool args w = (inl f, w') ->
  f = AuthInitFailed TokenRequired \/
  (exists text, f = AuthInitFailed (QuotaExceeded text)) \/
  f = NetworkFailure (baseUrl w) \/
  (exists e status statusText data,
     o = Rejected e /\ ax_response e = Some (status, statusText, data) /\
     f = ServerFailure status statusText data) \/
  f = NoResponse (baseUrl w) \/
  (exists cause, f = CallToolFailed tool cause).
Proof.
  intros Hcall.
  destruct (ensure_auth a w) as [[g|[]] w1] eqn:Hauth.
  - rewrite (callTool_auth_failed a o tool args w w1 g Hauth) in Hcall.
    injection Hcall as <- _.
    destruct (ensure_auth_failed _ _ _ _ Hauth) as (_ & Hinit).
    destruct (initializeAuth_failure_forms _ _ _ _ Hinit) as ([-> | Hq] & _);
      tauto.
  - rewrite (callTool_after_auth a o tool args w w1 Hauth) in Hcall.
    destruct (ensure_auth_token _ _ _ Hauth) as (_ & _ & _ & <-).
    do 2 right. by apply exchange_failure_shapes in Hcall.
Qed.


End TransportFacts.

Lemma clearAuth_forces_prompt_witness :
  events_since (snd (clearAuth Examples.stale_world))
    (snd (callTool Examples.answer (Resolved Examples.plain_envelope) "search"
            JNull (snd (clearAuth Examples.stale_world))))
  = storage_reads ++ [EvPrompt; EvPost (Some "secret") "search" JNull].
Proof.
  destruct (clearAuth_forces_prompt Examples.answer
              (Resolved Examples.plain_envelope) "search" JNull
              Examples.stale_world) as (rest & Hevents & _ & Htyped).
  assert (Hne : trim "  secret " <> EmptyString) by discriminate.
  specialize (Htyped "  secret " eq_refl Hne).
  vm_compute in Htyped. rewrite Htyped in Hevents. exact Hevents.
Defined.

Lemma callTool_keeps_credential_witness :
  accessToken
    (snd (callTool Examples.no_answer (Rejected Examples.refused) "search" JNull
            Examples.stale_world))
  = Some "tok".
Proof.
  exact (proj1 (callTool_keeps_credential Examples.no_answer
                  (Rejected Examples.refused) "search" JNull
                  Examples.stale_world eq_refl)).
Defined.


(** ** The normaliser and [search] *)

Section NormaliserFacts.

Context {runtime : Runtime}.

Lemma get_prop_member v p :
  v <> JNull -> get_prop (Some v) p = inr (member p (Some v)).
Proof. by destruct v. Qed.

Lemma callTool_resolved a data tool args w w1 :
  ensure_auth a w = (inr tt, w1) ->
  callTool a (Resolved data) tool args w =
  (match normalize data with
   | inr payload => inr payload
   | inl f => inl (CallToolFailed tool f)
   end,
   emit (EvPost (authorization w1) tool args) w1).
Proof.
  intros Hauth.
  by rewrite (callTool_after_auth _ _ _ _ _ _ Hauth), exchange_resolved.
Qed.

Lemma parse_sse_no_error dataLine parsed :
  JSON_parse dataLine = Some parsed ->
  parsed <> JNull ->
  truthy (member "error" (Some parsed)) = false ->
  parse_sse dataLine =
  let result := member "result" (Some parsed) in
  let fallback := inr (if truthy result then default parsed result else parsed) in
  let? contentArray :=
    (if truthy result then get_prop result "content" else inr result) in
  if truthy contentArray then
    match contentArray with
    | Some (JArr (firstContent :: _)) =>
        let? text := get_prop (Some firstContent) "text" in
        if truthy text then parse_value (default JNull text) else fallback
    | _ => fallback
    end
  else fallback.
Proof.
  intros Hparse Hnull Herr. unfold parse_sse, parse_value. rewrite Hparse.
  rewrite !(get_prop_member _ _ Hnull), Herr. reflexivity.
Qed.

(** X9. Which error a rejected request is reported as.  With a token
    held: a rejection whose code is NETWORK_ERROR or whose message contains
    the words Network Error is reported as the network error, even when a
    response came with it; otherwise a rejection with a response is reported
    as the server error with that status, status text and body; otherwise
    one whose request went out as the no-response error; and what is left
    as the generic error around the rejection. *)
Theorem rejection_reported a e tool args w :
  truthy_string (accessToken w) = true ->
  let reported := fst (callTool a (Rejected e) tool args w) in
  let network :=
    match ax_code e with
    | Some c => String.eqb c "NETWORK_ERROR"
    | None => false
    end || includes "Network Error" (ax_message e) in
  (network = true -> reported = inl (NetworkFailure (baseUrl w))) /\
  (network = false ->
   match ax_response e with
   | Some (status, statusText, data) =>
       reported = inl (ServerFailure status statusText data)
   | None =>
       reported = inl (if ax_request e then NoResponse (baseUrl w)
                       else CallToolFailed tool (AxiosError e))
   end).
Proof.
  intros Hheld. cbv zeta.
  rewrite (callTool_after_auth a _ tool args w w (ensure_auth_held a w Hheld)).
  unfold exchange, try_catch, bind, post, lift, callTool_catch, gets, throw.
  cbv beta iota zeta. cbn [baseUrl emit fst].
  destruct (_ || _); split; try discriminate; intros _; [reflexivity|].
  destruct (ax_response e) as [[[status statusText] data]|]; [reflexivity|].
  by destruct (ax_request e).
Qed.

(** X10. A structured response without an [error] member: the payload is
    its [result] member when it has one, whatever its value, and the whole
    response otherwise; an array is passed on as it is. *)
Theorem callTool_structured_payload a tool args w w1 :
  ensure_auth a w = (inr tt, w1) ->
  (forall env,
     assoc "error" env = None ->
     callTool a (Resolved (JObj env)) tool args w
     = (inr (match assoc "result" env with
             | Some result => result
             | None => JObj env
             end),
        emit (EvPost (authorization w1) tool args) w1)) /\
  (forall items,
     callTool a (Resolved (JArr items)) tool args w
     = (inr (JArr items), emit (EvPost (authorization w1) tool args) w1)).
Proof.
  intros Hauth. split.
  - intros env Herr. rewrite (callTool_resolved _ _ _ _ _ _ Hauth).
    unfold normalize. cbn [typeof_object andb negb has_prop get_prop].
    rewrite Herr. by destruct (assoc "result" env).
  - intros items. by rewrite (callTool_resolved _ _ _ _ _ _ Hauth).
Qed.

(** X11. A body that is a number, a boolean or [null] makes [callTool]
    fail with the generic error around the [TypeError] of the [in]
    operator. *)
Theorem callTool_primitive_body a tool args w w1 data :
  ensure_auth a w = (inr tt, w1) ->
  match data with JStr _ | JArr _ | JObj _ => False | _ => True end ->
  exists text,
    callTool a (Resolved data) tool args w
    = (inl (CallToolFailed tool (TypeError text)),
       emit (EvPost (authorization w1) tool args) w1).
Proof.
  intros Hauth Hprim. rewrite (callTool_resolved _ _ _ _ _ _ Hauth).
  destruct data; try done; eexists; reflexivity.
Qed.

(** X12. The two branches read the [error] member differently.  An
    envelope whose [error] member is present but falsy ([null], [false],
    [0], the empty string) makes [callTool] fail when it arrives as a
    structured response, where presence is tested, and is taken for a
    success when it arrives on a data line, where truthiness is tested:
    there its [result], here an object without [content], is the payload. *)
Theorem falsy_error_member a tool args w w1 env err result :
  ensure_auth a w = (inr tt, w1) ->
  assoc "error" env = Some err ->
  truthy (Some err) = false ->
  assoc "result" env = Some (JObj result) ->
  assoc "content" result = None ->
  (exists cause,
     fst (callTool a (Resolved (JObj env)) tool args w)
     = inl (CallToolFailed tool cause)) /\
  (forall body dataLine,
     find_data_line (split_lines body) = dataLine ->
     JSON_parse dataLine = Some (JObj env) ->
     fst (callTool a (Resolved (JStr body)) tool args w) = inr (JObj result)).
Proof.
  intros Hauth Herr Hfalsy Hres Hcontent. split.
  - rewrite (callTool_resolved _ _ _ _ _ _ Hauth). cbn [fst].
    unfold normalize. cbn [typeof_object andb negb has_prop get_prop].
    rewrite Herr.
    destruct err; cbn [get_prop]; eexists; reflexivity.
  - intros body dataLine Hline Hparse.
    rewrite (callTool_resolved _ _ _ _ _ _ Hauth). cbn [fst].
    pose proof (JSON_parse_nonempty _ _ Hparse) as Hne.
    destruct dataLine as [|c dataLine]; [done|].
    rewrite (normalize_stream _ _ _ Hline).
    rewrite (parse_sse_no_error _ _ Hparse) by (cbn [member]; congruence).
    cbn [member]. rewrite Hres. cbn [truthy get_prop default from_option id].
    by rewrite Hcontent.
Qed.

(** X13. An empty first data line hides the ones after it: when the first
    line with the data prefix has nothing behind the prefix, [callTool]
    fails for want of a data line, whatever the later lines carry. *)
Theorem empty_first_data_line a tool args w w1 pre post :
  ensure_auth a w = (inr tt, w1) ->
  Forall (fun l => startsWith "data: " l = false) pre ->
  Forall (fun l => no_newline l = true) (pre ++ "data: " :: post) ->
  callTool a (Resolved (JStr (join_lines (pre ++ "data: " :: post)))) tool args w
  = (inl (CallToolFailed tool NoDataLine),
     emit (EvPost (authorization w1) tool args) w1).
Proof.
  intros Hauth Hpre Hlines. rewrite (callTool_resolved _ _ _ _ _ _ Hauth).
  rewrite normalize_text, split_join_lines; [|by destruct pre|assumption].
  by rewrite (find_data_line_first pre "data: " post Hpre eq_refl).
Qed.

(** X14. Text that is no JSON, on the data line or in the [text] of the
    first content element, makes [callTool] fail with the generic error
    around the failure to parse the SSE response around the [SyntaxError]. *)
Theorem callTool_invalid_json a tool args w w1 body dataLine :
  ensure_auth a w = (inr tt, w1) ->
  find_data_line (split_lines body) = dataLine ->
  dataLine <> EmptyString ->
  (JSON_parse dataLine = None \/
   exists env result first rest t,
     JSON_parse dataLine = Some (JObj env) /\
     truthy (assoc "error" env) = false /\
     assoc "result" env = Some (JObj result) /\
     assoc "content" result = Some (JArr (JObj first :: rest)) /\
     assoc "text" first = Some (JStr t) /\ t <> EmptyString /\
     JSON_parse t = None) ->
  exists text,
    callTool a (Resolved (JStr body)) tool args w
    = (inl (CallToolFailed tool (SSEParseFailed (SyntaxError text))),
       emit (EvPost (authorization w1) tool args) w1).
Proof.
  intros Hauth Hline Hne Hbad. rewrite (callTool_resolved _ _ _ _ _ _ Hauth).
  destruct dataLine as [|c dataLine]; [done|].
  rewrite (normalize_stream _ _ _ Hline).
  destruct Hbad as [Hparse | (env & result & first & rest & t & Hparse & Herr
                              & Hres & Hcontent & Htext & Ht & Hinner)].
  - unfold parse_sse, parse_value. rewrite Hparse. eexists. reflexivity.
  - rewrite (parse_sse_no_error _ _ Hparse) by (cbn [member]; congruence).
    cbn [member]. rewrite Hres. cbn [truthy get_prop]. rewrite Hcontent.
    cbn [truthy get_prop]. rewrite Htext, (truthy_nonempty _ Ht).
    unfold parse_value. cbn [default from_option id]. rewrite Hinner.
    eexists. reflexivity.
Qed.

(** X15. The fallbacks of the SSE branch.  When the data line parses to
    an object without a truthy [error]: a truthy [result] without a truthy
    [content] is the payload; and without a truthy [result] the whole
    parsed object is. *)
Theorem sse_fallback a tool args w w1 body dataLine env :
  ensure_auth a w = (inr tt, w1) ->
  find_data_line (split_lines body) = dataLine ->
  JSON_parse dataLine = Some (JObj env) ->
  truthy (assoc "error" env) = false ->
  (forall result,
     assoc "result" env = Some result ->
     truthy (Some result) = true ->
     truthy (member "content" (Some result)) = false ->
     fst (callTool a (Resolved (JStr body)) tool args w) = inr result) /\
  (truthy (assoc "result" env) = false ->
   fst (callTool a (Resolved (JStr body)) tool args w) = inr (JObj env)).
Proof.
  intros Hauth Hline Hparse Herr.
  rewrite (callTool_resolved _ _ _ _ _ _ Hauth). cbn [fst].
  pose proof (JSON_parse_nonempty _ _ Hparse) as Hne.
  destruct dataLine as [|c dataLine]; [done|].
  rewrite (normalize_stream _ _ _ Hline).
  rewrite (parse_sse_no_error _ _ Hparse) by (cbn [member]; congruence).
  split.
  - intros result Hres Htruthy Hcontent. cbn [member]. rewrite Hres, Htruthy.
    rewrite get_prop_member by (intros ->; discriminate).
    cbv zeta. cbn [default from_option id]. by rewrite Hcontent.
  - intros Hfalsy. cbv zeta. cbn [member]. rewrite Hfalsy.
    cbv beta iota. by rewrite Hfalsy.
Qed.

Lemma pick_results_total payload : exists results, pick_results payload = inr results.
Proof.
  unfold pick_results.
  destruct (truthy (Some payload) && typeof_object payload) eqn:Hobj; [|eauto].
  assert (Hnull : payload <> JNull) by (intros ->; discriminate).
  rewrite !(get_prop_member _ _ Hnull).
  destruct (truthy (member "results" (Some payload))
            && isArray (member "results" (Some payload))); [eauto|].
  destruct (nested_value (member "data" (Some payload))) as (nested & -> & _).
  destruct (truthy nested); [eauto|].
  destruct (isArray (Some payload)); [eauto|].
  destruct (truthy (member "content" (Some payload))); eauto.
Qed.

(** The two ways [extract_results] fails. *)
Lemma extract_results_failure payload f :
  extract_results payload = inl f ->
  f = TypeError "Cannot read properties of null" \/
  f = TypeError "forEach is not a function".
Proof.
  unfold extract_results.
  destruct (pick_results_total payload) as (results & ->).
  destruct (length_gt_zero results); [|discriminate].
  destruct results as [| | | |items|]; try (intros [= <-]; by right).
  destruct (log_results items) as [g|[]] eqn:Hlog; [|discriminate].
  intros [= <-]. left. clear -Hlog.
  induction items as [|item items IH]; [discriminate|].
  cbn [log_results] in Hlog.
  destruct item; cbn [get_prop] in Hlog; try (by apply IH).
  by injection Hlog as <-.
Qed.

(** X16. A [null] among the results makes [search] fail.  When the
    payload has a top-level [results] array with a [null] element, the
    logging loop reads a property of it, and the [TypeError] of the engine
    reaches the caller of [search] as it is. *)
Theorem search_null_result a o text type w w1 members items :
  callTool a o "search" (search_arguments text type) w
  = (inr (JObj members), w1) ->
  assoc "results" members = Some (JArr items) ->
  In JNull items ->
  search a o text type w
  = (inl (TypeError "Cannot read properties of null"), w1).
Proof.
  intros Hcall Hres Hnull. rewrite (search_after_callTool _ _ _ _ _ _ _ Hcall).
  unfold extract_results, pick_results.
  cbn [truthy typeof_object andb get_prop]. rewrite Hres.
  cbn [truthy isArray andb default from_option id].
  destruct items as [|item items]; [done|].
  cbn [length_gt_zero length Nat.eqb negb].
  by rewrite (log_results_null _ Hnull).
Qed.

(** X17. A truthy [data.results] that is no array is taken for the
    results all the same, ahead of the later rules: a non-empty string in
    that place makes [search] fail on [forEach], a number or [true] makes it
    return nothing, also for a payload with a [content] of its own. *)
Theorem nested_results_not_array members data nested :
  as_array (assoc "results" members) = None ->
  assoc "data" members = Some (JObj data) ->
  assoc "results" data = Some nested ->
  truthy (Some nested) = true ->
  match nested with
  | JStr _ =>
      extract_results (JObj members)
      = inl (TypeError "forEach is not a function")
  | JNum _ | JBool _ => extract_results (JObj members) = inr []
  | _ => True
  end.
Proof.
  intros Htop Hdata Hnested Htruthy.
  unfold extract_results, pick_results.
  cbn [truthy typeof_object andb get_prop]. rewrite (as_array_None _ Htop).
  rewrite Hdata. cbn [truthy get_prop]. rewrite Hnested, Htruthy.
  destruct nested as [|b|q|s|items|o]; try exact I;
    cbn [default from_option id length_gt_zero]; try reflexivity.
  destruct s; [discriminate|reflexivity].
Qed.

(** A call only adds to the trace. *)
Lemma callTool_trace_grows a o tool args w :
  exists events, trace (snd (callTool a o tool args w)) = trace w ++ events.
Proof.
  destruct (ensure_auth a w) as [[g|[]] w1] eqn:Hauth.
  - rewrite (callTool_auth_failed a o tool args w w1 g Hauth).
    destruct (ensure_auth_failed _ _ _ _ Hauth) as (_ & Hinit).
    destruct (initializeAuth_failure_forms _ _ _ _ Hinit) as (_ & Htr & _).
    cbn [snd]. rewrite Htr. eauto.
  - rewrite (callTool_after_auth a o tool args w w1 Hauth), exchange_world.
    cbn [trace emit].
    destruct (truthy_string (accessToken w)) eqn:Hheld.
    + rewrite (ensure_auth_held a w Hheld) in Hauth. injection Hauth as <-. eauto.
    + rewrite (ensure_auth_absent a w Hheld) in Hauth.
      destruct (initializeAuth_events a w) as (evs & Htr & _).
      rewrite Hauth in Htr. cbn [snd] in Htr. rewrite Htr, <- !app_assoc. eauto.
Qed.

Lemma search_world a o text type w :
  snd (search a o text type w)
  = snd (callTool a o "search" (search_arguments text type) w).
Proof.
  unfold search, try_catch, bind, lift, throw.
  destruct (callTool a o "search" (search_arguments text type) w) as [[g|p] w1];
    [reflexivity|]. by destruct (extract_results p).
Qed.

Lemma search_trace_grows a o text type w :
  (length (trace w) <= length (trace (snd (search a o text type w))))%nat.
Proof.
  rewrite search_world.
  destruct (callTool_trace_grows a o "search" (search_arguments text type) w)
    as (events & ->).
  rewrite length_app. lia.
Qed.

Lemma search_failure_cases a o text type w f w' :
  search a o text type w = (inl f, w') ->
  f = AuthInitFailed TokenRequired \/
  (exists text, f = AuthInitFailed (QuotaExceeded text)) \/
  f = NetworkFailure (baseUrl w) \/
  (exists status statusText data, f = ServerFailure status statusText data) \/
  f = NoResponse (baseUrl w) \/
  (exists cause, f = CallToolFailed "search" cause) \/
  f = TypeError "Cannot read properties of null" \/
  f = TypeError "forEach is not a function".
Proof.
  intros Hsearch.
  destruct (callTool a o "search" (search_arguments text type) w)
    as [[g|payload] w1] eqn:Hcall.
  - unfold search, try_catch, bind, lift, throw in Hsearch.
    rewrite Hcall in Hsearch. injection Hsearch as <- _.
    destruct (callTool_failure_shapes_aux _ _ _ _ _ _ _ Hcall)
      as [-> | [(q & ->) | [-> | [(e & st & txt & d & _ & _ & ->) | [-> | (c & ->)]]]]];
      eauto 10.
  - rewrite (search_after_callTool _ _ _ _ _ _ _ Hcall) in Hsearch.
    injection Hsearch as Hextract _.
    destruct (extract_results_failure _ _ Hextract) as [-> | ->]; tauto.
Qed.

Lemma search_failure_message a o text type w f w' :
  search a o text type w = (inl f, w') -> message f <> EmptyString.
Proof.
  intros Hsearch.
  destruct (search_failure_cases _ _ _ _ _ _ _ Hsearch)
    as [-> | [(q & ->) | [-> | [(st & txt & d & ->) | [-> | [(c & ->) | [-> | ->]]]]]]];
    discriminate.
Qed.

(** X18. The failures a caller of [search] can see: those of [callTool],
    passed on unchanged, and the two [TypeError]s of its own extraction,
    which are not wrapped.  Each of them has a message that is not empty. *)
Theorem search_failure_shapes a o text type w f w' :
  search a o text type w = (inl f, w') ->
  (fst (callTool a o "search" (search_arguments text type) w) = inl f /\
   error_class f = "Error"
   \/
   (exists payload,
      fst (callTool a o "search" (search_arguments text type) w) = inr payload /\
      extract_results payload = inl f) /\
   error_class f = "TypeError") /\
  message f <> EmptyString.
Proof.
  intros Hsearch. split; [|by apply search_failure_message in Hsearch].
  destruct (callTool a o "search" (search_arguments text type) w)
    as [[g|payload] w1] eqn:Hcall.
  - left. unfold search, try_catch, bind, lift, throw in Hsearch.
    rewrite Hcall in Hsearch. injection Hsearch as <- _.
    split; [reflexivity|].
    destruct (callTool_failure_shapes_aux _ _ _ _ _ _ _ Hcall)
      as [-> | [(q & ->) | [-> | [(e & st & txt & d & _ & _ & ->) | [-> | (c & ->)]]]]];
      reflexivity.
  - right. rewrite (search_after_callTool _ _ _ _ _ _ _ Hcall) in Hsearch.
    injection Hsearch as Hextract _. split; [eauto|].
    by destruct (extract_results_failure _ _ Hextract) as [-> | ->].
Qed.

Lemma testConnection_run a o ping w :
  testConnection a o ping w =
  match search a o "test connection" "hybrid" w with
  | (inr _, w1) => (inr true, w1)
  | (inl _, w1) =>
      (inr (match ping with Resolved _ => true | Rejected _ => false end),
       emit (EvGet (authorization w1)) w1)
  end.
Proof.
  unfold testConnection, try_catch, bind, ret, get_root.
  destruct (search a o "test connection" "hybrid" w) as [[f|rs] w1];
    [by destruct ping|reflexivity].
Qed.

(** X19. The GET of [testConnection] is sent exactly when the trial
    search has failed, after everything the search did, with the token the
    client then holds if it holds one; a search that succeeds is the whole
    of the test.  The search is a real one: it may open the dialog and
    persist a token. *)
Theorem testConnection_events a o ping w :
  let searched := search a o "test connection" "hybrid" w in
  events_since w (snd (testConnection a o ping w))
  = events_since w (snd searched)
      ++ match fst searched with
         | inl _ => [EvGet (authorization (snd searched))]
         | inr _ => []
         end /\
  localStorage (snd (testConnection a o ping w)) = localStorage (snd searched) /\
  accessToken (snd (testConnection a o ping w)) = accessToken (snd searched).
Proof.
  cbv zeta. rewrite testConnection_run.
  destruct (search a o "test connection" "hybrid" w) as [[f|rs] w1] eqn:Hs;
    cbn [fst snd].
  - split; [|by split]. unfold events_since. cbn [trace emit].
    assert (Hlen : (length (trace w) <= length (trace w1))%nat).
    { pose proof (search_trace_grows a o "test connection" "hybrid" w) as Hg.
      rewrite Hs in Hg. exact Hg. }
    by rewrite drop_app_le.
  - by rewrite app_nil_r.
Qed.

End NormaliserFacts.

(** ** The factory and the components *)

Lemma strip_mcp_suffix url :
  ends_with "/mcp" url = true -> strip_mcp url +:+ "/mcp" = url.
Proof.
  induction url as [|c url IH]; [discriminate|].
  cbn [ends_with strip_mcp].
  destruct (String.eqb_spec (String c url) "/mcp") as [-> | Hne]; [reflexivity|].
  cbn [orb]. intros Hend.
  change (String c (strip_mcp url) +:+ "/mcp")
    with (String c (strip_mcp url +:+ "/mcp")).
  by rewrite (IH Hend).
Qed.

Lemma strip_mcp_other url :
  ends_with "/mcp" url = false -> strip_mcp url = url.
Proof.
  induction url as [|c url IH]; [reflexivity|].
  cbn [ends_with strip_mcp].
  destruct (String.eqb_spec (String c url) "/mcp") as [-> | Hne]; [discriminate|].
  cbn [orb]. intros Hend. by rewrite (IH Hend).
Qed.

(** X20. Where the client of the factory sends its requests.  Outside
    development mode the configured URL (the environment variable, else the
    argument, else the default, empty strings passed over) and the address
    of the requests are the same when the configured URL ends in ['/mcp'];
    otherwise ['/mcp'] is appended to it.  In development mode the base
    URL is empty, whatever is configured.  The client starts without a
    token. *)
Theorem factory_request_url env baseUrlArg storage now quota :
  let url :=
    first_truthy (REACT_APP_MCP_SERVER_URL env) baseUrlArg default_server_url in
  let w := createFastMCPClient env baseUrlArg storage now quota in
  accessToken w = None /\
  (NODE_ENV env = Some "development" -> request_url w = "/mcp") /\
  (NODE_ENV env <> Some "development" ->
   request_url w = if ends_with "/mcp" url then url else url +:+ "/mcp").
Proof.
  cbv zeta. unfold request_url, createFastMCPClient, client_base_url.
  cbn [accessToken baseUrl]. split; [reflexivity|]. split.
  - by intros ->.
  - intros Hprod.
    destruct (NODE_ENV env) as [mode|]; [destruct (String.eqb_spec mode "development")|].
    + congruence.
    + destruct (ends_with "/mcp" _) eqn:Hend.
      * by apply strip_mcp_suffix.
      * by rewrite strip_mcp_other.
    + destruct (ends_with "/mcp" _) eqn:Hend.
      * by apply strip_mcp_suffix.
      * by rewrite strip_mcp_other.
Qed.

Section ComponentFacts.

Context {runtime : Runtime}.

(** X21. What [handleSearch] leaves in the state of the form.  A query
    that is blank once trimmed sends nothing and only sets the error text,
    leaving the results of an earlier search in place.  Any other query
    runs one search, after which [loading] is off again and the state holds
    either the message of the failure, which is never empty, and no
    result, when the search failed; or no error and what the search
    returned. *)
Theorem handleSearch_outcome a o s w :
  let s' := fst (SearchComponent.handleSearch a o s w) in
  let w' := snd (SearchComponent.handleSearch a o s w) in
  (trim (SearchComponent.searchText s) = EmptyString ->
   w' = w /\
   SearchComponent.error s' = Some "Please enter a search query" /\
   SearchComponent.results s' = SearchComponent.results s /\
   SearchComponent.loading s' = SearchComponent.loading s) /\
  (trim (SearchComponent.searchText s) <> EmptyString ->
   w' = snd (search a o (SearchComponent.searchText s)
               (SearchComponent.searchType s) w) /\
   SearchComponent.loading s' = false /\
   SearchComponent.searchText s' = SearchComponent.searchText s /\
   SearchComponent.searchType s' = SearchComponent.searchType s /\
   match fst (search a o (SearchComponent.searchText s)
                (SearchComponent.searchType s) w) with
   | inl f =>
       SearchComponent.error s' = Some (message f) /\
       message f <> EmptyString /\
       SearchComponent.results s' = []
   | inr found =>
       SearchComponent.error s' = None /\
       SearchComponent.results s' = found
   end).
Proof.
  cbv zeta. unfold SearchComponent.handleSearch. split.
  - by intros ->.
  - intros Hquery.
    destruct (String.eqb_spec (trim (SearchComponent.searchText s)) EmptyString);
      [done|].
    destruct (search a o (SearchComponent.searchText s)
                (SearchComponent.searchType s) w) as [[f|found] w1] eqn:Hsearch;
      cbn [fst snd]; repeat split.
    by apply search_failure_message in Hsearch.
Qed.

(** X22. The alert of the Test Connection button.  It reports a failed
    test exactly when the trial search failed and the GET against the root
    was rejected, and a successful one in every other case; the alert for
    an error of the test itself is never shown. *)
Theorem testConnectionClick_alert a o ping w :
  fst (SearchComponent.testConnectionClick a o ping w) =
  match fst (search a o "test connection" "hybrid" w), ping with
  | inl _, Rejected _ => "Connection test failed. Check console for details."
  | _, _ => "Connection test successful!"
  end.
Proof.
  unfold SearchComponent.testConnectionClick. rewrite testConnection_run.
  destruct (search a o "test connection" "hybrid" w) as [[f|found] w1];
    [by destruct ping|reflexivity].
Qed.


End ComponentFacts.

(** ** The further properties at work on the example runtime *)

Lemma rejection_reported_witness :
  fst (callTool Examples.no_answer (Rejected Examples.refused) "search" JNull
         Examples.stale_world)
  = inl (ServerFailure 401 "Unauthorized" None).
Proof.
  exact (proj2 (rejection_reported Examples.no_answer Examples.refused "search"
                  JNull Examples.stale_world eq_refl) eq_refl).
Defined.

Lemma callTool_structured_payload_witness :
  callTool Examples.no_answer (Resolved (JObj [("result", JNull)])) "search" JNull
    Examples.stale_world
  = (inr JNull, emit (EvPost (Some "tok") "search" JNull) Examples.stale_world).
Proof.
  exact (proj1 (callTool_structured_payload Examples.no_answer "search" JNull
                  Examples.stale_world Examples.stale_world eq_refl)
           [("result", JNull)] eq_refl).
Defined.

Lemma callTool_primitive_body_witness :
  exists text,
    callTool Examples.no_answer (Resolved (JNum 5)) "search" JNull
      Examples.stale_world
    = (inl (CallToolFailed "search" (TypeError text)),
       emit (EvPost (Some "tok") "search" JNull) Examples.stale_world).
Proof.
  exact (callTool_primitive_body Examples.no_answer "search" JNull
           Examples.stale_world Examples.stale_world (JNum 5) eq_refl I).
Defined.

Lemma falsy_error_member_witness :
  fst (callTool Examples.no_answer
         (Resolved (JStr ("data: " +:+
            MiniJson.stringify
              (Some (JObj [("error", JNull);
                           ("result", JObj [("results", JArr [])])])))))
         "search" JNull Examples.stale_world)
  = inr (JObj [("results", JArr [])]).
Proof.
  refine (proj2 (falsy_error_member Examples.no_answer "search" JNull
                   Examples.stale_world Examples.stale_world
                   [("error", JNull); ("result", JObj [("results", JArr [])])]
                   JNull [("results", JArr [])]
                   eq_refl eq_refl eq_refl eq_refl eq_refl) _ _ eq_refl _).
  vm_compute. reflexivity.
Defined.

Lemma empty_first_data_line_witness :
  callTool Examples.no_answer
    (Resolved (JStr (join_lines ["event: message"; "data: "; "data: 1"])))
    "search" JNull Examples.stale_world
  = (inl (CallToolFailed "search" NoDataLine),
     emit (EvPost (Some "tok") "search" JNull) Examples.stale_world).
Proof.
  apply (empty_first_data_line Examples.no_answer "search" JNull
           Examples.stale_world Examples.stale_world
           ["event: message"] ["data: 1"]).
  - reflexivity.
  - repeat constructor.
  - repeat constructor.
Defined.

Lemma callTool_invalid_json_witness :
  exists text,
    callTool Examples.no_answer (Resolved (JStr "data: oops")) "search" JNull
      Examples.stale_world
    = (inl (CallToolFailed "search" (SSEParseFailed (SyntaxError text))),
       emit (EvPost (Some "tok") "search" JNull) Examples.stale_world).
Proof.
  apply (callTool_invalid_json Examples.no_answer "search" JNull
           Examples.stale_world Examples.stale_world "data: oops" "oops").
  - reflexivity.
  - reflexivity.
  - discriminate.
  - left. reflexivity.
Defined.

Lemma sse_fallback_witness :
  fst (callTool Examples.no_answer
         (Resolved (JStr ("data: " +:+
            MiniJson.stringify
              (Some (JObj [("result", JObj [("results", JArr [])])])))))
         "search" JNull Examples.stale_world)
  = inr (JObj [("results", JArr [])]).
Proof.
  refine (proj1 (sse_fallback Examples.no_answer "search" JNull
                   Examples.stale_world Examples.stale_world _ _
                   [("result", JObj [("results", JArr [])])]
                   eq_refl eq_refl _ eq_refl)
            (JObj [("results", JArr [])]) eq_refl eq_refl eq_refl).
  vm_compute. reflexivity.
Defined.

Lemma search_null_result_witness :
  fst (search Examples.no_answer
         (Resolved (JObj [("result", JObj [("results", JArr [Examples.hello; JNull])])]))
         "x" "hybrid" Examples.stale_world)
  = inl (TypeError "Cannot read properties of null").
Proof.
  rewrite (search_null_result Examples.no_answer
             (Resolved (JObj [("result",
                               JObj [("results", JArr [Examples.hello; JNull])])]))
             "x" "hybrid" Examples.stale_world
             (emit (EvPost (Some "tok") "search" (search_arguments "x" "hybrid"))
                Examples.stale_world)
             [("results", JArr [Examples.hello; JNull])]
             [Examples.hello; JNull]).
  - reflexivity.
  - reflexivity.
  - reflexivity.
  - right. left. reflexivity.
Defined.

Lemma nested_results_not_array_witness :
  extract_results
    (JObj [("data", JObj [("results", JStr "abc")]); ("content", JStr "x")])
  = inl (TypeError "forEach is not a function").
Proof.
  exact (nested_results_not_array
           [("data", JObj [("results", JStr "abc")]); ("content", JStr "x")]
           [("results", JStr "abc")] (JStr "abc")
           eq_refl eq_refl eq_refl eq_refl).
Defined.

Lemma search_failure_shapes_witness :
  message (ServerFailure 401 "Unauthorized" None) <> EmptyString.
Proof.
  exact (proj2 (search_failure_shapes Examples.no_answer
                  (Rejected Examples.refused) "x" "hybrid" Examples.stale_world
                  (ServerFailure 401 "Unauthorized" None)
                  (snd (search Examples.no_answer (Rejected Examples.refused)
                          "x" "hybrid" Examples.stale_world))
                  eq_refl)).
Defined.

Lemma testConnection_events_witness :
  events_since Examples.stale_world
    (snd (testConnection Examples.no_answer (Rejected Examples.refused)
            (Rejected Examples.refused) Examples.stale_world))
  = [EvPost (Some "tok") "search" (search_arguments "test connection" "hybrid");
     EvGet (Some "tok")].
Proof.
  rewrite (proj1 (testConnection_events Examples.no_answer
                    (Rejected Examples.refused) (Rejected Examples.refused)
                    Examples.stale_world)).
  reflexivity.
Defined.

Lemma factory_request_url_witness :
  request_url
    (createFastMCPClient
       (mkEnv (Some "https://host.test/api/mcp") (Some "production")) None ∅ 0
       Examples.never)
  = "https://host.test/api/mcp"
  /\
  request_url
    (createFastMCPClient (mkEnv (Some EmptyString) (Some "development"))
       (Some "https://host.test") ∅ 0 Examples.never)
  = "/mcp".
Proof.
  split.
  - apply (proj2 (proj2 (factory_request_url
                           (mkEnv (Some "https://host.test/api/mcp")
                              (Some "production")) None ∅ 0 Examples.never))).
    discriminate.
  - apply (proj1 (proj2 (factory_request_url
                           (mkEnv (Some EmptyString) (Some "development"))
                           (Some "https://host.test") ∅ 0 Examples.never))).
    reflexivity.
Defined.

Lemma handleSearch_outcome_witness :
  SearchComponent.results
    (fst (SearchComponent.handleSearch Examples.no_answer
            (Resolved Examples.plain_envelope) SearchComponent.initial
            Examples.stale_world))
  = [Examples.hello; Examples.world_record].
Proof.
  destruct (proj2 (handleSearch_outcome Examples.no_answer
                     (Resolved Examples.plain_envelope) SearchComponent.initial
                     Examples.stale_world)) as (_ & _ & _ & _ & Hshown).
  - discriminate.
  - exact (proj2 Hshown).
Defined.
